(** * vector_ingest: checkpointed batch delivery to a vector sink

    A shallow embedding of [src/vector_ingest.py].  The script reads a table
    of posts, drops the rows already listed in a checkpoint file, embeds the
    remaining texts in chunks, and upserts the resulting vectors to a sink in
    batches; every batch the sink accepts has its ids appended to the
    checkpoint file.

    External collaborators are modelled as deterministic oracles: the sink
    answers its n-th upsert call with [sink n], the embedding provider answers
    the call for chunk i with [provider i], the file system answers every
    operation on the checkpoint file with [disk], and the order in which the
    futures complete is an explicit list of chunk indices. *)

From Stdlib Require Import ZArith List Bool Ascii String Lia Arith.
From Stdlib Require Import Permutation.
From Stdlib Require Import Floats.SpecFloat.
From Stdlib Require Import Numbers.DecimalString.
Import ListNotations.

Open Scope string_scope.
Open Scope list_scope.

(** ** Python string operations used by the script *)

Module PyStr.

(** A character of the model is a code point below 256 (the Latin-1 range),
    held in an [ascii]; Python strings with other characters have no
    counterpart here. *)

(** [str.lower()], character by character: the letters A to Z and the
    capital letters from U+00C0 to U+00DE, the multiplication sign U+00D7
    apart, move up by 32. *)
Definition lower_ascii (c : ascii) : ascii :=
  let n := nat_of_ascii c in
  if ((65 <=? n)%nat && (n <=? 90)%nat)
     || ((192 <=? n)%nat && (n <=? 222)%nat && negb (n =? 215)%nat)
  then ascii_of_nat (n + 32) else c.

Fixpoint lower (s : string) : string :=
  match s with
  | EmptyString => EmptyString
  | String c s' => String (lower_ascii c) (lower s')
  end.

(** [sub in s]. *)
Fixpoint contains (sub s : string) : bool :=
  String.prefix sub s ||
  match s with
  | EmptyString => false
  | String _ s' => contains sub s'
  end.

(** The characters [str.strip()] removes, those for which [str.isspace] holds:
    tab, line feed, vertical tab, form feed, carriage return, the separators
    28..31, the space, the next-line control U+0085 and the no-break space
    U+00A0. *)
Definition is_space (c : ascii) : bool :=
  let n := nat_of_ascii c in
  ((9 <=? n)%nat && (n <=? 13)%nat) || ((28 <=? n)%nat && (n <=? 32)%nat)
  || (n =? 133)%nat || (n =? 160)%nat.

Fixpoint lstrip (s : string) : string :=
  match s with
  | EmptyString => EmptyString
  | String c s' => if is_space c then lstrip s' else s
  end.

(** Right strip: a character is kept when something that survives follows it
    or when it is not a space itself. *)
Fixpoint rstrip (s : string) : string :=
  match s with
  | EmptyString => EmptyString
  | String c s' =>
      match rstrip s' with
      | EmptyString => if is_space c then EmptyString else String c EmptyString
      | r => String c r
      end
  end.

Definition strip (s : string) : string := rstrip (lstrip s).

Definition LF : ascii := ascii_of_nat 10.
Definition CR : ascii := ascii_of_nat 13.

(** A text file is read line by line with universal newlines: a line ends at
    a line feed, at a carriage return, or at the pair of them.  The reader
    below cuts at every line feed and at every carriage return; the empty
    piece this leaves between the two characters of a pair is blank, and the
    one consumer of the lines strips them and skips the blank ones.  A last
    line without terminator is a line too. *)
Definition is_break (c : ascii) : bool :=
  Ascii.eqb c LF || Ascii.eqb c CR.

Fixpoint lines (s : string) : list string :=
  match s with
  | EmptyString => []
  | String c s' =>
      if is_break c then EmptyString :: lines s'
      else match lines s' with
           | [] => [String c EmptyString]
           | l :: ls => String c l :: ls
           end
  end.

Definition nonempty (s : string) : bool :=
  match s with EmptyString => false | _ => true end.

End PyStr.

(** ** Configuration constants *)

Definition ID_COLUMN : string := "post_id".
Definition EMBED_COLUMN : string := "post_text".
Definition OPENAI_EMBEDDING_BATCH_SIZE : nat := 100.
Definition PINECONE_UPSERT_BATCH_SIZE : nat := 100.

(** ** Checkpoint file *)

(** The file is its content.  [save_processed_ids] opens it for appending and
    writes every id followed by a line feed. *)
Fixpoint save_processed_ids (ids_to_save : list string) (file : string)
  : string :=
  match ids_to_save with
  | [] => file
  | id_val :: rest =>
      save_processed_ids rest
        (file ++ id_val ++ String PyStr.LF EmptyString)%string
  end.

(** [load_processed_ids]: the stripped non-blank lines.  A missing file reads
    as the empty one.  The result is used as a set: only membership and
    emptiness are observed. *)
Definition load_processed_ids (file : string) : list string :=
  filter PyStr.nonempty (map PyStr.strip (PyStr.lines file)).

Definition isin (id_val : string) (ids : list string) : bool :=
  existsb (String.eqb id_val) ids.

(** The ids that come back from the file as they were written: not empty,
    nothing for [strip] to remove, and no line break inside. *)
Fixpoint no_break (s : string) : bool :=
  match s with
  | EmptyString => true
  | String c s' => negb (PyStr.is_break c) && no_break s'
  end.

Definition clean_id (id_val : string) : bool :=
  String.eqb (PyStr.strip id_val) id_val && PyStr.nonempty id_val
  && no_break id_val.

(** A file that is empty or ends with a line feed, as every file written by
    [save_processed_ids] alone does. *)
Definition terminated (file : string) : Prop :=
  file = EmptyString \/
  exists f, file = (f ++ String PyStr.LF EmptyString)%string.

(** What [save_processed_ids] adds to the file. *)
Fixpoint ids_text (ids : list string) : string :=
  match ids with
  | [] => EmptyString
  | id_val :: rest => (id_val ++ String PyStr.LF (ids_text rest))%string
  end.

(** ** Cell values and metadata coercion *)

(** A scalar held in a cell of the data frame.  [ANone] stands for the
    missing markers ([None], [NaT], [NA]); a float that is a NaN is missing
    too.  [AOther] is an object of any other type (a timestamp, a tuple),
    carried as its [str]. *)
Inductive atom : Type :=
| ANone
| ABool (b : bool)
| AInt (z : Z)
| AFloat (f : spec_float)
| AStr (s : string)
| AOther (text : string).

(** A cell holds a scalar or a Python list of scalars. *)
Inductive value : Type :=
| VAtom (a : atom)
| VList (l : list atom).

(** What [np.issubdtype] does with a column's dtype: a NumPy dtype is a
    number, a boolean or something else (object, datetime); a pandas
    extension dtype, such as the string dtype pandas 3.0 gives a text
    column, is no NumPy dtype and makes [np.issubdtype] raise [TypeError]. *)
Inductive dtype : Type :=
| DNumber
| DBool
| DOther
| DExtension.

(** A metadata value as stored in the payload. *)
Inductive mvalue : Type :=
| MInt (z : Z)
| MBool (b : bool)
| MFloat (f : spec_float)
| MStr (s : string)
| MList (l : list string).

(** [pd.isna] answers a scalar with a boolean and a list with a boolean
    array, one entry per element. *)
Inductive isna_result : Type :=
| IsnaScalar (b : bool)
| IsnaArray (bs : list bool).

Definition isna_atom (a : atom) : bool :=
  match a with
  | ANone => true
  | AFloat S754_nan => true
  | _ => false
  end.

Definition pd_isna (v : value) : isna_result :=
  match v with
  | VAtom a => IsnaScalar (isna_atom a)
  | VList l => IsnaArray (map isna_atom l)
  end.

Section Coercion.

(** [str] of a finite float (Python prints the shortest decimal that reads
    back); its digits play no part here. *)
Variable repr_finite : spec_float -> string.

(** The truth value of an empty array: [Some false] (with a deprecation
    warning) up to NumPy 2.1, [None], an exception, from NumPy 2.2 on. *)
Variable empty_array_truth : option bool.

(** The dtype of each column of the frame, by column name. *)
Variable dtype_of : string -> dtype.

Definition str_float (f : spec_float) : string :=
  match f with
  | S754_nan => "nan"
  | S754_infinity false => "inf"
  | S754_infinity true => "-inf"
  | _ => repr_finite f
  end.

(** Python's [str]. *)
Definition py_str (a : atom) : string :=
  match a with
  | ANone => "None"
  | ABool true => "True"
  | ABool false => "False"
  | AInt z => NilZero.string_of_int (Z.to_int z)
  | AFloat f => str_float f
  | AStr s => s
  | AOther text => text
  end.

(** The test of an [if]: [None] is the [ValueError] an array of two or more
    elements raises when its truth value is asked. *)
Definition truth (r : isna_result) : option bool :=
  match r with
  | IsnaScalar b => Some b
  | IsnaArray [] => empty_array_truth
  | IsnaArray [b] => Some b
  | IsnaArray (_ :: _ :: _) => None
  end.

(** The branches of the coercion chain, for one value of a column of dtype
    [dt]; [None] when computing it raises: the [ValueError] of the test, or
    the [TypeError] of [np.issubdtype] on an extension dtype, which is asked
    only for a missing value. *)
Definition coerce (dt : dtype) (v : value) : option mvalue :=
  match truth (pd_isna v) with
  | None => None
  | Some true =>
      match dt with
      | DNumber => Some (MInt 0)
      | DBool => Some (MBool false)
      | DOther => Some (MStr "")
      | DExtension => None
      end
  | Some false =>
      match v with
      | VAtom (ABool b) => Some (MBool b)
      | VAtom (AInt z) => Some (MInt z)
      | VAtom (AFloat f) => Some (MFloat f)
      | VAtom (AStr s) => Some (MStr s)
      | VList l => Some (MList (map py_str l))
      | VAtom a => Some (MStr (py_str a))
      end
  end.

(** The loop over the columns of a row: the first value that raises ends it. *)
Fixpoint coerce_items (items : list (string * value))
  : option (list (string * mvalue)) :=
  match items with
  | [] => Some []
  | (col_name, v) :: rest =>
      match coerce (dtype_of col_name) v with
      | None => None
      | Some m =>
          match coerce_items rest with
          | None => None
          | Some payload => Some ((col_name, m) :: payload)
          end
      end
  end.

End Coercion.

(** ** Loading and filtering the frame *)

(** A row: the identifier cell, the text cell, and the other columns. *)
Record Row : Type := mkRow {
  row_id : atom;
  row_text : atom;
  row_attrs : list (string * value)
}.

Section Loading.

Variable repr_finite : spec_float -> string.

(** [astype(str)] on a missing value: pandas before 3.0 writes its [str]
    (the string nan for a NaN), pandas 3.0 keeps it missing. *)
Variable astype_keeps_na : bool.

Definition astype_str (a : atom) : atom :=
  if isna_atom a && astype_keeps_na then a
  else AStr (py_str repr_finite a).

(** [df[ID_COLUMN] = df[ID_COLUMN].astype(str)] *)
Definition astype_id (df : list Row) : list Row :=
  map (fun r => mkRow (astype_str (row_id r)) (row_text r) (row_attrs r)) df.

(** [df.dropna(subset=[ID_COLUMN, EMBED_COLUMN])] *)
Definition dropna (df : list Row) : list Row :=
  filter (fun r => negb (isna_atom (row_id r)) &&
                   negb (isna_atom (row_text r))) df.

Definition load_data (raw : list Row) : list Row :=
  dropna (astype_id raw).

(** The identifier of a loaded row, as the string the id column holds. *)
Definition row_key (r : Row) : string := py_str repr_finite (row_id r).

(** [df[~df[ID_COLUMN].isin(processed_ids_set)]], applied when the set is
    not empty. *)
Definition resume (df : list Row) (processed_ids_set : list string)
  : list Row :=
  match processed_ids_set with
  | [] => df
  | _ => filter (fun r => negb (isin (row_key r) processed_ids_set)) df
  end.

(** All the columns of a row, as [Series.items()] lists them. *)
Definition row_items (r : Row) : list (string * value) :=
  (ID_COLUMN, VAtom (row_id r)) :: (EMBED_COLUMN, VAtom (row_text r))
  :: row_attrs r.

End Loading.

(** ** Chunking *)

(** [range(0, n, step)] *)
Definition range_step (n step : nat) : list nat :=
  map (fun k => k * step) (seq 0 ((n + step - 1) / step)).

(** [df.iloc[i:j]] *)
Definition iloc {A : Type} (i j : nat) (df : list A) : list A :=
  firstn (j - i) (skipn i df).

Definition is_nil {A : Type} (l : list A) : bool :=
  match l with [] => true | _ => false end.

(** The slices of the preparation loop; an empty slice is skipped. *)
Definition all_original_data_batches (df : list Row) : list (list Row) :=
  filter (fun c => negb (is_nil c))
    (map (fun i => iloc i (i + OPENAI_EMBEDDING_BATCH_SIZE) df)
         (range_step (List.length df) OPENAI_EMBEDDING_BATCH_SIZE)).

Definition all_text_batches_to_embed (df : list Row) : list (list atom) :=
  map (map row_text) (all_original_data_batches df).

(** ** Sink delivery with retries *)

Section Delivery.

(** An embedding vector; its content is never inspected. *)
Context {Vector : Type}.

Record DeliveryItem : Type := mkItem {
  item_id : string;
  item_values : Vector;
  item_metadata : list (string * mvalue)
}.

Definition DeliveryBatch : Type := list DeliveryItem.

(** What the run does to the outside, in order.  An append is recorded with
    the ids it wrote and with the error that ended it, if one did. *)
Inductive event : Type :=
| EvUpsert (batch : DeliveryBatch) (error : option string)
| EvSleep (seconds : Z)
| EvAppend (written : list string) (error : option string).

(** The outside: the checkpoint file, the number of upsert calls the sink has
    answered, and the trace of events so far. *)
Record World : Type := mkWorld {
  ckpt : string;
  served : nat;
  trace : list event
}.

(** [sink n] is the sink's answer to its n-th upsert call (counting from 0):
    [None] when the call returns, [Some msg] when it raises an exception
    whose [str] is [msg]. *)
Variable sink : nat -> option string.

(** [disk n j] is the file system's answer to the j-th operation of the
    append that is made when the sink has answered [n] calls: operation 0
    opens the checkpoint file, operation j writes the j-th id, and the
    operation after the last write closes the file.  [None] when the
    operation succeeds, [Some msg] when an exception whose [str] is [msg]
    leaves the [with] block there.  The file is taken to receive each id as a
    whole when its write returns; a write that raises adds nothing to it. *)
Variable disk : nat -> nat -> option string.

Definition RETRYABLE : list string :=
  ["ssl"; "connection"; "timeout"; "serviceunavailable"; "bad_write_retry";
   "broken pipe"; "server error"].

Definition is_retryable (msg : string) : bool :=
  let error_str := PyStr.lower msg in
  existsb (fun sub => PyStr.contains sub error_str) RETRYABLE.

(** A call either returns a count or lets an exception escape:
    [time.sleep] raises [ValueError] on a negative argument, and it is called
    from inside the [except] block. *)
Inductive outcome : Type :=
| Ret (n : Z)
| Raised.

Definition do_upsert (batch : DeliveryBatch) (w : World)
  : option string * World :=
  let r := sink (served w) in
  (r, mkWorld (ckpt w) (S (served w)) (trace w ++ [EvUpsert batch r])).

(** The loop of [save_processed_ids] from the j-th write on, and the closing
    of the file after it: the error that ended it, the file, and the ids
    written. *)
Fixpoint write_ids (n : nat) (ids_to_save : list string) (j : nat)
    (file : string) : option string * string * list string :=
  match ids_to_save with
  | [] => (disk n j, file, [])
  | id_val :: rest =>
      match disk n j with
      | Some e => (Some e, file, [])
      | None =>
          let '(r, file', written) :=
            write_ids n rest (S j)
                      (file ++ id_val ++ String PyStr.LF EmptyString)%string in
          (r, file', id_val :: written)
      end
  end.

(** The call [save_processed_ids(ids, checkpoint_filepath)] of line 60, with
    the exception it may raise. *)
Definition do_append (ids : list string) (w : World)
  : option string * World :=
  match disk (served w) 0 with
  | Some e =>
      (Some e,
       mkWorld (ckpt w) (served w) (trace w ++ [EvAppend [] (Some e)]))
  | None =>
      let '(r, file, written) := write_ids (served w) ids 1 (ckpt w) in
      (r, mkWorld file (served w) (trace w ++ [EvAppend written r]))
  end.

(** The body of the [try], lines 57-62: the exception it raises, if any. *)
Definition try_batch (vectors_batch : DeliveryBatch) (w : World)
  : option string * World :=
  match do_upsert vectors_batch w with
  | (Some e, w1) => (Some e, w1)
  | (None, w1) => do_append (map item_id vectors_batch) w1
  end.

Definition do_sleep (seconds : Z) (w : World) : World :=
  mkWorld (ckpt w) (served w) (trace w ++ [EvSleep seconds]).

(** The delay slept before retry number [retries]. *)
Definition actual_delay (current_delay : Z) (retries : Z) : Z :=
  Z.min (current_delay * 2 ^ retries) 60.

(** The [while retries < max_retries] loop.  Every iteration returns or
    increments [retries], so [max_retries - retries] iterations are enough;
    [fuel] bounds them. *)
Fixpoint retry_loop (fuel : nat) (vectors_batch : DeliveryBatch)
    (max_retries current_delay retries : Z) (w : World) : outcome * World :=
  match fuel with
  | O => (Ret 0, w)
  | S fuel' =>
      if (retries <? max_retries)%Z then
        match try_batch vectors_batch w with
        | (None, w1) =>
            let ids_just_upserted := map item_id vectors_batch in
            (Ret (Z.of_nat (List.length ids_just_upserted)), w1)
        | (Some e, w1) =>
            if is_retryable e && (retries <? max_retries - 1)%Z then
              let retries' := (retries + 1)%Z in
              let delay := actual_delay current_delay retries' in
              if (delay <? 0)%Z then (Raised, w1)
              else retry_loop fuel' vectors_batch max_retries current_delay
                              retries' (do_sleep delay w1)
            else if is_retryable e && (max_retries - 1 <=? retries)%Z then
              (Ret 0, w1)
            else
              (Ret 0, w1)
        end
      else (Ret 0, w)
  end.

Definition upsert_with_retry (vectors_batch : DeliveryBatch)
    (max_retries initial_delay : Z) (w : World) : outcome * World :=
  match vectors_batch with
  | [] => (Ret 0, w)
  | _ =>
      retry_loop (Z.to_nat max_retries) vectors_batch max_retries
                 initial_delay 0 w
  end.

(** The two call sites pass neither [max_retries] nor [initial_delay]. *)
Definition deliver (vectors_batch : DeliveryBatch) (w : World)
  : outcome * World :=
  upsert_with_retry vectors_batch 3 5 w.

End Delivery.

(** ** The run *)

Section Pipeline.

Context {Vector : Type}.

Variable repr_finite : spec_float -> string.
Variable empty_array_truth : option bool.
Variable astype_keeps_na : bool.
Variable dtype_of : string -> dtype.
Variable sink : nat -> option string.
Variable disk : nat -> nat -> option string.

(** [provider i texts] is what the future of chunk [i] holds: the vectors
    the embedding call returned for [texts], or [None] when it raised. *)
Variable provider : nat -> list atom -> option (list Vector).

(** [embed]: an empty batch is answered without a call. *)
Definition embed (batch_idx : nat) (texts_batch : list atom)
  : option (list Vector) :=
  match texts_batch with
  | [] => Some []
  | _ => provider batch_idx texts_batch
  end.

Record RunState : Type := mkRun {
  vectors_to_upsert_buffer : @DeliveryBatch Vector;
  processed_count_in_run : Z;
  world : @World Vector
}.

Definition metadata_payload (r : Row) : option (list (string * mvalue)) :=
  coerce_items repr_finite empty_array_truth dtype_of (row_items r).

(** Lines 213-218: the buffer is handed to [upsert_with_retry] once it holds
    [PINECONE_UPSERT_BATCH_SIZE] items and is emptied afterwards.  [inl] is
    the state the loop goes on with, [inr] the state in which an exception
    leaves the loop. *)
Definition flush_if_full (st : RunState) : RunState + RunState :=
  let buf := vectors_to_upsert_buffer st in
  if (PINECONE_UPSERT_BATCH_SIZE <=? List.length buf)%nat then
    match buf with
    | [] => inl st
    | _ =>
        match deliver sink disk buf (world st) with
        | (Ret succeeded_count, w') =>
            inl (mkRun []
                   (if (0 <? succeeded_count)%Z
                    then (processed_count_in_run st + succeeded_count)%Z
                    else processed_count_in_run st)
                   w')
        | (Raised, w') => inr (mkRun buf (processed_count_in_run st) w')
        end
    end
  else inl st.

(** The body of the [try] for one completed future, from item
    [item_idx_in_batch] on.  An index past the ids, a value whose coercion
    raises, or an exception out of the flush leaves the loop; the handler
    prints and the run goes on with the next future. *)
Fixpoint process_items (original_ids : list string) (original_rows : list Row)
    (item_idx_in_batch : nat) (embeddings : list Vector) (st : RunState)
  : RunState :=
  match embeddings with
  | [] => st
  | embedding_vector :: rest =>
      match nth_error original_ids item_idx_in_batch,
            nth_error original_rows item_idx_in_batch with
      | Some pinecone_id, Some row =>
          match metadata_payload row with
          | None => st
          | Some payload =>
              let item := mkItem pinecone_id embedding_vector payload in
              let st1 := mkRun (vectors_to_upsert_buffer st ++ [item])
                               (processed_count_in_run st) (world st) in
              match flush_if_full st1 with
              | inl st2 =>
                  process_items original_ids original_rows
                                (S item_idx_in_batch) rest st2
              | inr st2 => st2
              end
          end
      | _, _ => st
      end
  end.

(** One iteration of the [as_completed] loop. *)
Definition process_future (df : list Row) (batch_idx : nat) (st : RunState)
  : RunState :=
  match nth_error (all_original_data_batches df) batch_idx with
  | None => st
  | Some original_data =>
      match embed batch_idx (map row_text original_data) with
      | None => st
      | Some generated_embeddings =>
          process_items (map (row_key repr_finite) original_data)
                        original_data 0 generated_embeddings st
      end
  end.

(** Lines 225-231: what is left in the buffer goes out as a last batch. *)
Definition drain (st : RunState) : RunState :=
  match vectors_to_upsert_buffer st with
  | [] => st
  | buf =>
      match deliver sink disk buf (world st) with
      | (Ret succeeded_count, w') =>
          mkRun []
                (if (0 <? succeeded_count)%Z
                 then (processed_count_in_run st + succeeded_count)%Z
                 else processed_count_in_run st)
                w'
      | (Raised, w') => mkRun buf (processed_count_in_run st) w'
      end
  end.

(** The run on the frame left after filtering; [completion_order] lists the
    chunk indices in the order their futures complete. *)
Definition embedding_phase (df : list Row) (completion_order : list nat)
    (w0 : World) : RunState :=
  fold_left (fun st batch_idx => process_future df batch_idx st)
            completion_order (mkRun [] 0 w0).

Definition run_filtered (df : list Row) (completion_order : list nat)
    (w0 : World) : RunState :=
  match df with
  | [] => mkRun [] 0 w0
  | _ => drain (embedding_phase df completion_order w0)
  end.

(** Lines 104-231. *)
Definition main (raw : list Row) (completion_order : list nat) (w0 : World)
  : RunState :=
  let df := load_data repr_finite astype_keeps_na raw in
  let processed_ids_set := load_processed_ids (ckpt w0) in
  run_filtered (resume repr_finite df processed_ids_set) completion_order w0.

End Pipeline.

(** ** Reading a trace *)

Section Observers.

Context {Vector : Type}.

Fixpoint upserts (tr : list (@event Vector))
  : list (@DeliveryBatch Vector * option string) :=
  match tr with
  | [] => []
  | EvUpsert b r :: tr' => (b, r) :: upserts tr'
  | _ :: tr' => upserts tr'
  end.

Fixpoint sleeps (tr : list (@event Vector)) : list Z :=
  match tr with
  | [] => []
  | EvSleep d :: tr' => d :: sleeps tr'
  | _ :: tr' => sleeps tr'
  end.

Fixpoint appended (tr : list (@event Vector)) : list string :=
  match tr with
  | [] => []
  | EvAppend written _ :: tr' => written ++ appended tr'
  | _ :: tr' => appended tr'
  end.

(** The ids written by the appends that ran to their end. *)
Fixpoint completed (tr : list (@event Vector)) : list string :=
  match tr with
  | [] => []
  | EvAppend written None :: tr' => written ++ completed tr'
  | _ :: tr' => completed tr'
  end.

(** A trace without its appends: an upsert is [None], a sleep is its
    length. *)
Fixpoint pattern (tr : list (@event Vector)) : list (option Z) :=
  match tr with
  | [] => []
  | EvUpsert _ _ :: tr' => None :: pattern tr'
  | EvSleep d :: tr' => Some d :: pattern tr'
  | EvAppend _ _ :: tr' => pattern tr'
  end.

(** The lengths of the sleeps a pattern shows. *)
Fixpoint lengths (p : list (option Z)) : list Z :=
  match p with
  | [] => []
  | Some d :: p' => d :: lengths p'
  | None :: p' => lengths p'
  end.

(** The delays of the sleeps after retry number [retries], an upsert before
    and after each: upsert, sleep, upsert, ..., upsert. *)
Definition backoff_pattern (current_delay retries : Z) (k : nat)
  : list (option Z) :=
  flat_map (fun j => [None;
                      Some (Z.min (current_delay * 2 ^ (retries + Z.of_nat j))
                                  60)])
           (seq 1 k)
  ++ [None].

(** Every append of the trace comes right after an upsert the sink
    accepted; [accepted] tells whether the event before the trace was
    one. *)
Fixpoint appends_follow_success (accepted : bool) (tr : list (@event Vector))
  : bool :=
  match tr with
  | [] => true
  | EvUpsert _ None :: tr' => appends_follow_success true tr'
  | EvUpsert _ (Some _) :: tr' => appends_follow_success false tr'
  | EvSleep _ :: tr' => appends_follow_success false tr'
  | EvAppend _ _ :: tr' => accepted && appends_follow_success false tr'
  end.

End Observers.

Section Attempts.

Context {Vector : Type}.
Variable sink : nat -> option string.

(** The events of [k] failed attempts each followed by its backoff sleep:
    the sink has answered [n] calls before the first of them, and [retries]
    retries have been counted. *)
Fixpoint failed_attempts (b : @DeliveryBatch Vector) (n : nat)
    (current_delay retries : Z) (k : nat) : list (@event Vector) :=
  match k with
  | O => []
  | S k' =>
      EvUpsert b (sink n)
      :: EvSleep (actual_delay current_delay (retries + 1))
      :: failed_attempts b (S n) current_delay (retries + 1) k'
  end.

End Attempts.

(** ** The run as a sequence of deliveries *)

(** The items pushed on the buffer one by one are cut into batches of [size];
    [buf] is what the buffer holds when the first of [xs] arrives.  The
    result is the batches cut and what is left in the buffer. *)
Fixpoint split_batches {A : Type} (size : nat) (buf xs : list A)
  : list (list A) * list A :=
  match xs with
  | [] => ([], buf)
  | x :: xs' =>
      let buf' := buf ++ [x] in
      if (size <=? List.length buf')%nat then
        let (bs, rest) := split_batches size [] xs' in (buf' :: bs, rest)
      else split_batches size buf' xs'
  end.

Section Deliveries.

Context {Vector : Type}.

Variable repr_finite : spec_float -> string.
Variable empty_array_truth : option bool.
Variable dtype_of : string -> dtype.
Variable sink : nat -> option string.
Variable disk : nat -> nat -> option string.
Variable provider : nat -> list atom -> option (list Vector).

(** One [deliver] call and the update of the counter that follows it. *)
Definition deliver_step (st : Z * @World Vector) (b : @DeliveryBatch Vector)
  : Z * @World Vector :=
  match deliver sink disk b (snd st) with
  | (Ret n, w') => ((if (0 <? n)%Z then fst st + n else fst st)%Z, w')
  | (Raised, w') => (fst st, w')
  end.

Definition deliver_batches (bs : list (@DeliveryBatch Vector))
    (st : Z * @World Vector) : Z * @World Vector :=
  fold_left deliver_step bs st.

(** An item reaches the buffer: lines 207-218 when [deliver] returns. *)
Definition push (st : @RunState Vector) (x : @DeliveryItem Vector)
  : @RunState Vector :=
  let buf := vectors_to_upsert_buffer st ++ [x] in
  if (PINECONE_UPSERT_BATCH_SIZE <=? List.length buf)%nat then
    let r := deliver_step (processed_count_in_run st, world st) buf in
    mkRun [] (fst r) (snd r)
  else mkRun buf (processed_count_in_run st) (world st).

Definition feed (items : @DeliveryBatch Vector) (st : @RunState Vector)
  : @RunState Vector :=
  fold_left push items st.

(** The items a completed future contributes: those built before the loop
    over its embeddings ends or is left. *)
Fixpoint items_from (original_ids : list string) (original_rows : list Row)
    (item_idx_in_batch : nat) (embeddings : list Vector)
  : @DeliveryBatch Vector :=
  match embeddings with
  | [] => []
  | embedding_vector :: rest =>
      match nth_error original_ids item_idx_in_batch,
            nth_error original_rows item_idx_in_batch with
      | Some pinecone_id, Some row =>
          match metadata_payload repr_finite empty_array_truth dtype_of row with
          | None => []
          | Some payload =>
              mkItem pinecone_id embedding_vector payload
              :: items_from original_ids original_rows
                            (S item_idx_in_batch) rest
          end
      | _, _ => []
      end
  end.

Definition future_items (df : list Row) (batch_idx : nat)
  : @DeliveryBatch Vector :=
  match nth_error (all_original_data_batches df) batch_idx with
  | None => []
  | Some original_data =>
      match embed provider batch_idx (map row_text original_data) with
      | None => []
      | Some generated_embeddings =>
          items_from (map (row_key repr_finite) original_data) original_data
                     0 generated_embeddings
      end
  end.

(** All the items of a run, in the order they reach the buffer. *)
Definition run_items (df : list Row) (completion_order : list nat)
  : @DeliveryBatch Vector :=
  flat_map (future_items df) completion_order.

(** The batches of a run: those cut while embedding, then the rest. *)
Definition delivery_batches (items : @DeliveryBatch Vector)
  : list (@DeliveryBatch Vector) :=
  let (bs, rest) := split_batches PINECONE_UPSERT_BATCH_SIZE [] items in
  bs ++ match rest with [] => [] | _ => [rest] end.

(** No operation on the checkpoint file raises. *)
Definition disk_ok : Prop := forall n j, disk n j = None.

(** The provider answers every call with one vector per text. *)
Definition provider_ok : Prop :=
  forall i texts, texts <> [] ->
    exists vs, provider i texts = Some vs /\
               List.length vs = List.length texts.

(** No value of the row makes the coercion raise. *)
Definition coercible (r : Row) : Prop :=
  metadata_payload repr_finite empty_array_truth dtype_of r <> None.

End Deliveries.

(** ** Sample data *)

Definition sample_key (k : nat) : string :=
  NilZero.string_of_uint (Nat.to_uint k).

Definition sample_row (k : nat) : Row :=
  mkRow (AStr (sample_key k)) (AStr "hello") [].

Definition sample_frame (n : nat) : list Row := map sample_row (seq 0 n).

Definition sample_item (k : nat) : @DeliveryItem unit :=
  mkItem (sample_key k) tt [].

Definition sample_buffer (n : nat) : @DeliveryBatch unit :=
  map sample_item (seq 0 n).

Definition sample_provider (i : nat) (texts : list atom)
  : option (list unit) :=
  Some (map (fun _ => tt) texts).

Definition sample_world : @World unit := mkWorld "" 0 [].

Definition sample_disk (n j : nat) : option string := None.

Definition sample_refusal : string := "401 Unauthorized: invalid API key".

(** * Properties *)

(** ** Checkpoint file *)

Lemma string_app_assoc (a b c : string) :
  ((a ++ b) ++ c = a ++ (b ++ c))%string.
Proof. induction a as [|x a IH]; cbn; [reflexivity|now rewrite IH]. Qed.

Lemma string_app_nil_r (a : string) : (a ++ EmptyString = a)%string.
Proof. induction a as [|x a IH]; cbn; [reflexivity|now rewrite IH]. Qed.

Lemma lines_terminated_nonempty (a : string) :
  PyStr.lines (a ++ String PyStr.LF EmptyString) <> [].
Proof.
  induction a as [|c a IH]; cbn; [discriminate|].
  destruct (PyStr.is_break c); [discriminate|].
  destruct (PyStr.lines _); [contradiction|discriminate].
Qed.

(** Reading goes line by line: what follows a line feed is read on its
    own. *)
Lemma lines_after_break (a b : string) :
  PyStr.lines (a ++ String PyStr.LF b) =
  PyStr.lines (a ++ String PyStr.LF EmptyString) ++ PyStr.lines b.
Proof.
  induction a as [|c a IH]; [reflexivity|].
  cbn [String.append PyStr.lines].
  destruct (PyStr.is_break c); [now rewrite IH|].
  rewrite IH.
  pose proof (lines_terminated_nonempty a) as Hne.
  destruct (PyStr.lines (a ++ String PyStr.LF EmptyString)) as [|l ls];
    [contradiction|reflexivity].
Qed.

Lemma lines_one (id_val : string) :
  no_break id_val = true ->
  PyStr.lines (id_val ++ String PyStr.LF EmptyString) = [id_val].
Proof.
  induction id_val as [|c s IH]; intros Hnb; [reflexivity|].
  cbn [no_break] in Hnb. apply andb_prop in Hnb. destruct Hnb as [Hc Hs].
  cbn [String.append PyStr.lines].
  apply negb_true_iff in Hc. rewrite Hc, (IH Hs). reflexivity.
Qed.

Lemma load_after_terminated (file rest : string) :
  terminated file ->
  load_processed_ids (file ++ rest) =
  load_processed_ids file ++ load_processed_ids rest.
Proof.
  intros [->|(f & ->)]; [reflexivity|].
  unfold load_processed_ids.
  rewrite string_app_assoc. cbn [String.append].
  now rewrite lines_after_break, map_app, filter_app.
Qed.

Lemma save_processed_ids_text (ids : list string) :
  forall file, save_processed_ids ids file = (file ++ ids_text ids)%string.
Proof.
  induction ids as [|x ids IH]; intros file; cbn [save_processed_ids ids_text].
  - now rewrite string_app_nil_r.
  - rewrite IH, !string_app_assoc. reflexivity.
Qed.

Lemma load_ids_text (ids : list string) (id_val : string) :
  In id_val ids -> clean_id id_val = true ->
  In id_val (load_processed_ids (ids_text ids)).
Proof.
  intros Hin Hclean. unfold clean_id in Hclean.
  apply andb_prop in Hclean. destruct Hclean as [Hclean Hnb].
  apply andb_prop in Hclean. destruct Hclean as [Hstrip Hne].
  apply String.eqb_eq in Hstrip.
  induction ids as [|x ids IH]; [contradiction|].
  cbn [ids_text]. unfold load_processed_ids.
  rewrite lines_after_break, map_app, filter_app.
  apply in_or_app. destruct Hin as [->|Hin]; [left|right; now apply IH].
  rewrite (lines_one id_val Hnb). cbn [map filter].
  rewrite Hstrip, Hne. now left.
Qed.

(** An id written to a terminated file is read back, if it is clean. *)
Lemma saved_id_is_loaded (file : string) (ids : list string)
    (id_val : string) :
  terminated file -> In id_val ids -> clean_id id_val = true ->
  isin id_val (load_processed_ids (save_processed_ids ids file)) = true.
Proof.
  intros Hterm Hin Hclean.
  rewrite save_processed_ids_text, (load_after_terminated _ _ Hterm).
  unfold isin. apply existsb_exists. exists id_val.
  split; [|apply String.eqb_refl].
  apply in_or_app. right. now apply load_ids_text.
Qed.


(** [ids_text], written with the library's [String.concat]. *)
Lemma ids_text_concat (ids : list string) :
  ids_text ids =
  String.concat EmptyString
    (map (fun id_val => (id_val ++ String PyStr.LF EmptyString)%string) ids).
Proof.
  induction ids as [|x ids IH]; [reflexivity|].
  cbn [ids_text]. rewrite IH. destruct ids as [|y ids]; [reflexivity|].
  cbn [map String.concat]. rewrite (string_app_assoc x). reflexivity.
Qed.

Lemma ids_text_app (a b : list string) :
  ids_text (a ++ b) = (ids_text a ++ ids_text b)%string.
Proof.
  induction a as [|x a IH]; [reflexivity|].
  cbn [app ids_text]. rewrite IH, string_app_assoc. reflexivity.
Qed.

(** ** Delivery *)

Section DeliveryFacts.

Context {Vector : Type}.
Variable sink : nat -> option string.
Variable disk : nat -> nat -> option string.

Lemma actual_delay_nonneg (d r : Z) :
  (0 <= d)%Z -> (0 <= actual_delay d r)%Z.
Proof.
  intros Hd. unfold actual_delay.
  apply Z.min_glb; [|lia].
  apply Z.mul_nonneg_nonneg; [assumption|].
  apply Z.pow_nonneg. lia.
Qed.

Lemma world_eta (w : @World Vector) :
  mkWorld (ckpt w) (served w) (trace w) = w.
Proof. destruct w; reflexivity. Qed.

(** One iteration of the loop. *)
Lemma retry_loop_S (fuel : nat) (b : @DeliveryBatch Vector) (max d r : Z)
    (w : @World Vector) :
  retry_loop sink disk (S fuel) b max d r w =
  if (r <? max)%Z then
    let w1 := snd (try_batch sink disk b w) in
    match fst (try_batch sink disk b w) with
    | None => (Ret (Z.of_nat (List.length b)), w1)
    | Some e =>
        if is_retryable e && (r <? max - 1)%Z then
          if (actual_delay d (r + 1) <? 0)%Z then (Raised, w1)
          else retry_loop sink disk fuel b max d (r + 1)
                          (do_sleep (actual_delay d (r + 1)) w1)
        else (Ret 0, w1)
    end
  else (Ret 0, w).
Proof.
  simpl. destruct (r <? max)%Z; [|reflexivity].
  destruct (try_batch sink disk b w) as [[e|] w1]; cbn [fst snd];
    [|rewrite length_map; reflexivity].
  destruct (is_retryable e && (r <? max - 1)%Z); [reflexivity|].
  destruct (is_retryable e && (max - 1 <=? r)%Z); reflexivity.
Qed.

(** The loop does not depend on its fuel, once there is enough of it: the
    fuel running out is the loop condition turning false. *)
Lemma retry_loop_fuel (b : @DeliveryBatch Vector) (max d : Z) :
  forall (f1 f2 : nat) (r : Z) (w : @World Vector),
    (Z.to_nat (max - r) <= f1)%nat -> (Z.to_nat (max - r) <= f2)%nat ->
    retry_loop sink disk f1 b max d r w = retry_loop sink disk f2 b max d r w.
Proof.
  assert (Hout : forall f r w, (max <= r)%Z ->
            retry_loop sink disk f b max d r w = (Ret 0, w)).
  { intros [|f] r w Hr; [reflexivity|]. rewrite retry_loop_S.
    destruct (r <? max)%Z eqn:E; [apply Z.ltb_lt in E; lia|reflexivity]. }
  induction f1 as [|f1 IH]; intros f2 r w H1 H2.
  - rewrite (Hout 0%nat), (Hout f2) by lia. reflexivity.
  - destruct f2 as [|f2]; [rewrite !Hout by lia; reflexivity|].
    rewrite !retry_loop_S.
    destruct (r <? max)%Z eqn:E; [|reflexivity]. apply Z.ltb_lt in E.
    cbv zeta. destruct (fst (try_batch sink disk b w)) as [e|]; [|reflexivity].
    destruct (is_retryable e && (r <? max - 1)%Z); [|reflexivity].
    destruct (actual_delay d (r + 1) <? 0)%Z; [reflexivity|].
    apply IH; lia.
Qed.

(** ** Appends *)

(** What the writing loop leaves: the ids written are the first ids of the
    list, the file has grown by them, and without error all were written. *)
Lemma write_ids_spec (n : nat) (ids : list string) :
  forall (j : nat) (file : string),
    let x := write_ids disk n ids j file in
    snd (fst x) = (file ++ ids_text (snd x))%string /\
    (exists rest, ids = snd x ++ rest) /\
    (fst (fst x) = None -> snd x = ids).
Proof.
  induction ids as [|id_val ids IH]; intros j file.
  - cbn. rewrite string_app_nil_r. repeat split. now exists [].
  - cbn [write_ids]. destruct (disk n j) as [e|].
    + cbn. rewrite string_app_nil_r. repeat split;
        [now exists (id_val :: ids)|discriminate].
    + specialize (IH (S j) (file ++ id_val ++ String PyStr.LF EmptyString)%string).
      cbv zeta in IH.
      destruct (write_ids disk n ids (S j) _) as [[r file'] written].
      cbn [fst snd] in *. destruct IH as (Hf & (rest & Hp) & Hn).
      repeat split.
      * rewrite Hf. cbn [ids_text]. now rewrite !string_app_assoc.
      * exists rest. cbn [app]. now rewrite <- Hp.
      * intros Hr. now rewrite (Hn Hr).
Qed.

Lemma write_ids_ok (n : nat) (ids : list string) :
  disk_ok disk ->
  forall (j : nat) (file : string),
    write_ids disk n ids j file = (None, save_processed_ids ids file, ids).
Proof.
  intros Hok. induction ids as [|id_val ids IH]; intros j file;
    cbn [write_ids save_processed_ids]; rewrite Hok; [reflexivity|].
  now rewrite IH.
Qed.

(** One append, whatever the file system answers. *)
Lemma do_append_spec (ids : list string) (w : @World Vector) :
  let x := do_append disk ids w in
  exists written,
    trace (snd x) = trace w ++ [EvAppend written (fst x)] /\
    ckpt (snd x) = (ckpt w ++ ids_text written)%string /\
    served (snd x) = served w /\
    (exists rest, ids = written ++ rest) /\
    (fst x = None -> written = ids).
Proof.
  unfold do_append. destruct (disk (served w) 0) as [e|].
  - exists []. cbn. rewrite string_app_nil_r. repeat split;
      [now exists ids|discriminate].
  - pose proof (write_ids_spec (served w) ids 1 (ckpt w)) as H.
    cbv zeta in H.
    destruct (write_ids disk (served w) ids 1 (ckpt w)) as [[r file] written].
    cbn [fst snd] in *. exists written. cbn [trace ckpt served].
    destruct H as (Hf & Hp & Hn). repeat split; assumption.
Qed.

Lemma do_append_ok (ids : list string) (w : @World Vector) :
  disk_ok disk ->
  do_append disk ids w =
  (None, mkWorld (save_processed_ids ids (ckpt w)) (served w)
                 (trace w ++ [EvAppend ids None])).
Proof.
  intros Hok. unfold do_append. now rewrite Hok, write_ids_ok.
Qed.

(** ** Attempts *)

Lemma try_batch_refused (b : @DeliveryBatch Vector) (w : @World Vector)
    (e : string) :
  sink (served w) = Some e ->
  try_batch sink disk b w =
  (Some e, mkWorld (ckpt w) (S (served w)) (trace w ++ [EvUpsert b (Some e)])).
Proof. intros Hs. unfold try_batch, do_upsert. now rewrite Hs. Qed.

Lemma try_batch_ok (b : @DeliveryBatch Vector) (w : @World Vector) :
  disk_ok disk -> sink (served w) = None ->
  try_batch sink disk b w =
  (None,
   mkWorld (save_processed_ids (map item_id b) (ckpt w)) (S (served w))
           (trace w ++ [EvUpsert b None; EvAppend (map item_id b) None])).
Proof.
  intros Hok Hs. unfold try_batch, do_upsert. rewrite Hs.
  rewrite (do_append_ok _ _ Hok). cbn [ckpt served trace].
  now rewrite <- app_assoc.
Qed.

(** One attempt, whatever the sink and the file system answer: one upsert of
    the batch, followed by an append when the sink accepted it. *)
Lemma try_batch_spec (b : @DeliveryBatch Vector) (w : @World Vector) :
  let x := try_batch sink disk b w in
  served (snd x) = S (served w) /\
  exists E written,
    trace (snd x) = trace w ++ E /\
    ckpt (snd x) = (ckpt w ++ ids_text written)%string /\
    (exists rest, map item_id b = written ++ rest) /\
    ((exists e, E = [EvUpsert b (Some e)] /\ written = [] /\
                fst x = Some e) \/
     (E = [EvUpsert b None; EvAppend written (fst x)] /\
      (fst x = None -> written = map item_id b))).
Proof.
  unfold try_batch, do_upsert. destruct (sink (served w)) as [e|].
  - cbn. split; [reflexivity|]. exists [EvUpsert b (Some e)], [].
    rewrite string_app_nil_r. repeat split; [now eexists|].
    left. now exists e.
  - pose proof (do_append_spec (map item_id b)
                  (mkWorld (ckpt w) (S (served w))
                           (trace w ++ [EvUpsert b None]))) as H.
    cbv zeta in H. destruct H as (written & Ht & Hc & Hs & Hp & Hn).
    cbn [ckpt served trace] in *. cbv zeta.
    split; [assumption|].
    exists [EvUpsert b None;
            EvAppend written
              (fst (do_append disk (map item_id b)
                      (mkWorld (ckpt w) (S (served w))
                               (trace w ++ [EvUpsert b None]))))],
      written.
    rewrite Ht, <- app_assoc. repeat split; try assumption.
    right. split; [reflexivity|assumption].
Qed.

(** ** Traces *)

Lemma upserts_app (t1 t2 : list (@event Vector)) :
  upserts (t1 ++ t2) = upserts t1 ++ upserts t2.
Proof.
  induction t1 as [|[b r|d|ids e] t1 IH]; simpl; [reflexivity| |assumption..].
  now rewrite IH.
Qed.

Lemma sleeps_app (t1 t2 : list (@event Vector)) :
  sleeps (t1 ++ t2) = sleeps t1 ++ sleeps t2.
Proof.
  induction t1 as [|[b r|d|ids e] t1 IH]; simpl;
    [reflexivity|assumption| |assumption].
  now rewrite IH.
Qed.

Lemma appended_app (t1 t2 : list (@event Vector)) :
  appended (t1 ++ t2) = appended t1 ++ appended t2.
Proof.
  induction t1 as [|[b r|d|ids e] t1 IH]; simpl; [reflexivity|assumption..|].
  now rewrite IH, app_assoc.
Qed.

Lemma pattern_app (t1 t2 : list (@event Vector)) :
  pattern (t1 ++ t2) = pattern t1 ++ pattern t2.
Proof.
  induction t1 as [|[b r|d|ids e] t1 IH]; simpl;
    [reflexivity| | |assumption]; now rewrite IH.
Qed.

Lemma sleeps_pattern (t : list (@event Vector)) :
  sleeps t = lengths (pattern t).
Proof.
  induction t as [|[b r|d|ids e] t IH]; simpl; [reflexivity|assumption| |assumption].
  now rewrite IH.
Qed.

Lemma backoff_pattern_S (d r : Z) (k : nat) :
  backoff_pattern d r (S k) =
  None :: Some (actual_delay d (r + 1)) :: backoff_pattern d (r + 1) k.
Proof.
  unfold backoff_pattern, actual_delay.
  cbn [seq flat_map app]. change (Z.of_nat 1) with 1%Z. do 2 f_equal.
  rewrite <- (seq_shift k 1), flat_map_concat_map, map_map,
    <- flat_map_concat_map.
  f_equal. apply flat_map_ext. intros j.
  replace (r + Z.of_nat (S j))%Z with (r + 1 + Z.of_nat j)%Z by lia.
  reflexivity.
Qed.

Lemma lengths_backoff_pattern (d r : Z) (k : nat) :
  lengths (backoff_pattern d r k) =
  map (fun j => actual_delay d (r + Z.of_nat j)) (seq 1 k).
Proof.
  revert r. induction k as [|k IH]; intros r; [reflexivity|].
  rewrite backoff_pattern_S. cbn [lengths seq map]. rewrite IH. f_equal.
  rewrite <- (seq_shift k 1), map_map. apply map_ext. intros j. f_equal. lia.
Qed.

(** What one attempt adds to a trace, for the observers. *)
Lemma try_batch_facts (b : @DeliveryBatch Vector) (w : @World Vector) :
  let x := try_batch sink disk b w in
  exists E written answer,
    trace (snd x) = trace w ++ E /\
    served (snd x) = S (served w) /\
    ckpt (snd x) = (ckpt w ++ ids_text written)%string /\
    (forall id_val, In id_val written -> In id_val (map item_id b)) /\
    (fst x = None -> written = map item_id b) /\
    (forall T, upserts (E ++ T) = (b, answer) :: upserts T) /\
    (forall T, appended (E ++ T) = written ++ appended T) /\
    (forall T, pattern (E ++ T) = None :: pattern T) /\
    (forall d T, appends_follow_success false (E ++ EvSleep d :: T)
                 = appends_follow_success false T) /\
    appends_follow_success false E = true /\
    (forall T, completed (E ++ T) =
               match fst x with
               | None => written
               | Some _ => []
               end ++ completed T).
Proof.
  destruct (try_batch_spec b w) as (Hs & E & written & Ht & Hc & Hp & Hshape).
  cbv zeta. exists E, written.
  destruct Hshape as [(e & -> & -> & He)|(-> & Hn)].
  - exists (Some e). repeat split; try assumption; try reflexivity.
    + intros ? [].
    + rewrite He. discriminate.
    + intros T. rewrite He. reflexivity.
  - exists None. destruct Hp as (rest & Hp).
    repeat split; try assumption; try reflexivity.
    + intros id_val Hin. rewrite Hp. apply in_or_app. now left.
    + intros T. cbn [app completed].
      destruct (fst (try_batch sink disk b w)); reflexivity.
Qed.

(** The loop seen from outside, whatever the sink and the file system
    answer. *)
Lemma retry_loop_shape (b : @DeliveryBatch Vector) (max d : Z) :
  (0 <= d)%Z ->
  forall (fuel : nat) (r : Z) (w : @World Vector),
    (Z.to_nat (max - r) <= fuel)%nat ->
    exists n w' T,
      retry_loop sink disk fuel b max d r w = (Ret n, w') /\
      trace w' = trace w ++ T /\
      (n = 0%Z \/ n = Z.of_nat (List.length b)) /\
      (forall x, In x (upserts T) -> fst x = b) /\
      (forall id_val, In id_val (appended T) -> In id_val (map item_id b)) /\
      ckpt w' = (ckpt w ++ ids_text (appended T))%string /\
      served w' = (served w + List.length (upserts T))%nat /\
      (List.length (upserts T) <= Z.to_nat (max - r))%nat /\
      ((T = [] /\ (max <= r)%Z) \/
       (pattern T = backoff_pattern d r (List.length (upserts T) - 1) /\
        (1 <= List.length (upserts T))%nat)) /\
      appends_follow_success false T = true /\
      n = Z.of_nat (List.length (completed T)).
Proof.
  intros Hd fuel. induction fuel as [|fuel IH]; intros r w Hfuel.
  - exists 0%Z, w, []. cbn. rewrite app_nil_r, string_app_nil_r.
    repeat split; try (left; split; [reflexivity|lia]); try (now left);
      try lia; try (intros ? []).
  - rewrite retry_loop_S. cbv zeta.
    destruct (r <? max)%Z eqn:Hlt.
    2:{ apply Z.ltb_ge in Hlt. exists 0%Z, w, []. cbn.
        rewrite app_nil_r, string_app_nil_r.
        repeat split; try (left; split; [reflexivity|lia]); try (now left);
          try lia; try (intros ? []). }
    apply Z.ltb_lt in Hlt.
    destruct (try_batch_facts b w)
      as (E & written & answer & Ht & Hs & Hc & Hin & Hall & HU & HA & HP
          & HF & HF0 & HC).
    cbv zeta in *.
    assert (Hstop : forall n, (n = 0%Z \/ n = Z.of_nat (List.length b)) ->
              n = Z.of_nat (List.length (completed E)) ->
              exists n' w' T,
                (Ret n, snd (try_batch sink disk b w)) = (Ret n', w') /\
                trace w' = trace w ++ T /\
                (n' = 0%Z \/ n' = Z.of_nat (List.length b)) /\
                (forall x, In x (upserts T) -> fst x = b) /\
                (forall id_val, In id_val (appended T) ->
                                In id_val (map item_id b)) /\
                ckpt w' = (ckpt w ++ ids_text (appended T))%string /\
                served w' = (served w + List.length (upserts T))%nat /\
                (List.length (upserts T) <= Z.to_nat (max - r))%nat /\
                ((T = [] /\ (max <= r)%Z) \/
                 (pattern T = backoff_pattern d r (List.length (upserts T) - 1)
                  /\ (1 <= List.length (upserts T))%nat)) /\
                appends_follow_success false T = true /\
                n' = Z.of_nat (List.length (completed T))).
    { intros n Hn Hcount. exists n, (snd (try_batch sink disk b w)), E.
      pose proof (HU []) as HU0. pose proof (HA []) as HA0.
      pose proof (HP []) as HP0. rewrite app_nil_r in HU0, HA0, HP0.
      rewrite HU0, HA0, HP0. cbn [upserts appended pattern List.length].
      rewrite app_nil_r.
      repeat split; try assumption; try lia.
      - intros x [<-|[]]. reflexivity.
      - right. split; [reflexivity|lia]. }
    pose proof (HC []) as HC0. rewrite !app_nil_r in HC0.
    destruct (fst (try_batch sink disk b w)) as [e|] eqn:Hres.
    2:{ apply Hstop; [now right|].
        now rewrite HC0, (Hall eq_refl), length_map. }
    destruct (is_retryable e && (r <? max - 1)%Z) eqn:Hretry.
    2:{ apply Hstop; [now left|]. now rewrite HC0. }
    apply andb_prop in Hretry. destruct Hretry as [_ Hlt1].
    apply Z.ltb_lt in Hlt1.
    pose proof (actual_delay_nonneg d (r + 1) Hd) as Hnn.
    destruct (actual_delay d (r + 1) <? 0)%Z eqn:Hneg;
      [apply Z.ltb_lt in Hneg; lia|].
    set (w2 := do_sleep _ _).
    destruct (IH (r + 1)%Z w2 ltac:(lia))
      as (n & w' & T & Hrun & Htr & Hn & Hb & Hids & Hck & Hsv & Hlen & Hpat
          & Hord & Hcount).
    exists n, w', (E ++ EvSleep (actual_delay d (r + 1)) :: T).
    rewrite Hrun, Htr, Hck, Hsv. unfold w2, do_sleep. cbn [trace ckpt served].
    rewrite Ht, Hc, Hs, HU, HA, HP, HF, HC.
    cbn [upserts appended pattern completed app List.length].
    rewrite <- !app_assoc. cbn [app].
    repeat split; try assumption; try lia.
    + intros x [<-|Hx]; [reflexivity|now apply Hb].
    + intros id_val Hx. apply in_app_or in Hx.
      destruct Hx as [Hx|Hx]; [now apply Hin|now apply Hids].
    + now rewrite ids_text_app, string_app_assoc.
    + right. split; [|lia].
      destruct Hpat as [(-> & Hge)|(Hpat & Hone)]; [lia|].
      rewrite Hpat.
      replace (S (List.length (upserts T)) - 1)%nat
        with (S (List.length (upserts T) - 1)) by lia.
      now rewrite backoff_pattern_S.
Qed.

(** ** Attempts the sink refuses *)

Lemma failed_attempts_appended (b : @DeliveryBatch Vector) (n : nat)
    (d r : Z) (k : nat) :
  appended (failed_attempts sink b n d r k) = [].
Proof.
  revert n r. induction k as [|k IH]; intros n r; simpl; [reflexivity|apply IH].
Qed.

Lemma failed_attempts_upserts (b : @DeliveryBatch Vector) (n : nat)
    (d r : Z) (k : nat) :
  upserts (failed_attempts sink b n d r k) =
  map (fun j => (b, sink (n + j))) (seq 0 k).
Proof.
  revert n r. induction k as [|k IH]; intros n r; [reflexivity|].
  cbn [failed_attempts upserts seq map]. rewrite IH, Nat.add_0_r.
  f_equal. rewrite <- seq_shift, map_map.
  apply map_ext. intros j. now rewrite Nat.add_succ_r.
Qed.

Lemma failed_attempts_sleeps (b : @DeliveryBatch Vector) (n : nat)
    (d r : Z) (k : nat) :
  sleeps (failed_attempts sink b n d r k) =
  map (fun j => actual_delay d (r + Z.of_nat j)) (seq 1 k).
Proof.
  revert n r. induction k as [|k IH]; intros n r; [reflexivity|].
  cbn [failed_attempts sleeps seq map]. rewrite IH. f_equal.
  rewrite <- (seq_shift k 1), map_map.
  apply map_ext. intros j. f_equal. lia.
Qed.

Lemma failed_attempts_all_fail (b : @DeliveryBatch Vector) (n : nat)
    (d r : Z) (k : nat) :
  (forall j, (j < k)%nat ->
     exists e, sink (n + j) = Some e /\ is_retryable e = true) ->
  forall x, In x (upserts (failed_attempts sink b n d r k)) -> snd x <> None.
Proof.
  intros Hfail x Hx. rewrite failed_attempts_upserts in Hx.
  apply in_map_iff in Hx. destruct Hx as (j & <- & Hj).
  apply in_seq in Hj. destruct (Hfail j ltac:(lia)) as (e & He & _).
  simpl. rewrite He. discriminate.
Qed.

Lemma failed_attempts_batches (b : @DeliveryBatch Vector) (n : nat)
    (d r : Z) (k : nat) :
  forall x, In x (upserts (failed_attempts sink b n d r k)) -> fst x = b.
Proof.
  intros x Hx. rewrite failed_attempts_upserts in Hx.
  apply in_map_iff in Hx. now destruct Hx as (j & <- & _).
Qed.

Lemma appended_prefix_nil (p q : list (@event Vector)) :
  appended (p ++ q) = [] -> appended p = [].
Proof.
  rewrite appended_app. intros H. now apply app_eq_nil in H.
Qed.

Lemma failures_zero (b : @DeliveryBatch Vector) (d r : Z) (w : @World Vector) :
  mkWorld (ckpt w) (served w + 0)
          (trace w ++ failed_attempts sink b (served w) d r 0) = w.
Proof. simpl. rewrite Nat.add_0_r, app_nil_r. apply world_eta. Qed.

(** [k] retryable failures of the sink in a row, with retries to spare, bring
    the loop to its state after the [k] sleeps. *)
Lemma retry_loop_skip (b : @DeliveryBatch Vector) (max d : Z) :
  (0 <= d)%Z ->
  forall (k fuel : nat) (r : Z) (w : @World Vector),
    (forall j, (j < k)%nat ->
       exists e, sink (served w + j) = Some e /\ is_retryable e = true) ->
    (r + Z.of_nat k <= max - 1)%Z ->
    (k <= fuel)%nat ->
    retry_loop sink disk fuel b max d r w =
    retry_loop sink disk (fuel - k) b max d (r + Z.of_nat k)
      (mkWorld (ckpt w) (served w + k)
               (trace w ++ failed_attempts sink b (served w) d r k)).
Proof.
  intros Hd k. induction k as [|k IH]; intros fuel r w Hfail Hr Hfuel.
  - rewrite failures_zero, Nat.sub_0_r, Z.add_0_r. reflexivity.
  - destruct fuel as [|fuel]; [lia|].
    rewrite retry_loop_S. cbv zeta.
    destruct (Hfail 0%nat ltac:(lia)) as (e & He & Hre).
    rewrite Nat.add_0_r in He.
    rewrite (try_batch_refused b w e He). cbn [fst snd].
    rewrite Hre. cbn [andb].
    assert (H1 : (r <? max)%Z = true) by (apply Z.ltb_lt; lia).
    assert (H2 : (r <? max - 1)%Z = true) by (apply Z.ltb_lt; lia).
    assert (H3 : (actual_delay d (r + 1) <? 0)%Z = false)
      by (apply Z.ltb_ge; now apply actual_delay_nonneg).
    rewrite H1, H2, H3.
    rewrite IH; [| |lia|lia].
    + cbn [Nat.sub]. f_equal; [lia|].
      unfold do_sleep. cbn [ckpt served trace].
      f_equal; [lia|]. rewrite <- !app_assoc. cbn [app failed_attempts].
      now rewrite He.
    + intros j Hj. destruct (Hfail (S j) ltac:(lia)) as (e' & He' & Hre').
      exists e'. split; [|assumption]. rewrite <- He'.
      unfold do_sleep. cbn [served]. f_equal. lia.
Qed.

Lemma upsert_with_retry_loop (b : @DeliveryBatch Vector) (max d : Z)
    (w : @World Vector) :
  b <> [] ->
  upsert_with_retry sink disk b max d w =
  retry_loop sink disk (Z.to_nat max) b max d 0 w.
Proof. destruct b; [contradiction|reflexivity]. Qed.

(** The sink accepts the batch at attempt [k + 1] and the ids are written. *)
Lemma upsert_with_retry_ok_at (b : @DeliveryBatch Vector) (max d : Z)
    (w : @World Vector) (k : nat) :
  b <> [] -> (0 <= d)%Z -> disk_ok disk ->
  (forall j, (j < k)%nat ->
     exists e, sink (served w + j) = Some e /\ is_retryable e = true) ->
  (Z.of_nat k < max)%Z ->
  sink (served w + k) = None ->
  upsert_with_retry sink disk b max d w =
  (Ret (Z.of_nat (List.length b)),
   mkWorld (save_processed_ids (map item_id b) (ckpt w)) (served w + k + 1)
           (trace w ++ failed_attempts sink b (served w) d 0 k
                   ++ [EvUpsert b None; EvAppend (map item_id b) None])).
Proof.
  intros Hb Hd Hok Hfail Hk Hs.
  rewrite (upsert_with_retry_loop b max d w Hb),
    (retry_loop_skip b max d Hd k); [|assumption|lia|lia].
  destruct (Z.to_nat max - k)%nat as [|fuel] eqn:Hf; [lia|].
  rewrite retry_loop_S. cbv zeta.
  rewrite try_batch_ok by assumption. cbn [fst snd ckpt served trace].
  assert (H1 : (0 + Z.of_nat k <? max)%Z = true) by (apply Z.ltb_lt; lia).
  rewrite H1. f_equal. f_equal; [lia|]. now rewrite <- !app_assoc.
Qed.

(** The sink refuses the batch at attempt [k + 1], for good or as the last
    attempt allowed. *)
Lemma upsert_with_retry_fail_at (b : @DeliveryBatch Vector) (max d : Z)
    (w : @World Vector) (k : nat) (e : string) :
  b <> [] -> (0 <= d)%Z ->
  (forall j, (j < k)%nat ->
     exists e', sink (served w + j) = Some e' /\ is_retryable e' = true) ->
  (Z.of_nat k < max)%Z ->
  sink (served w + k) = Some e ->
  is_retryable e = false \/ (Z.of_nat k = max - 1)%Z ->
  upsert_with_retry sink disk b max d w =
  (Ret 0,
   mkWorld (ckpt w) (served w + k + 1)
           (trace w ++ failed_attempts sink b (served w) d 0 k
                   ++ [EvUpsert b (Some e)])).
Proof.
  intros Hb Hd Hfail Hk Hs Hlast.
  rewrite (upsert_with_retry_loop b max d w Hb),
    (retry_loop_skip b max d Hd k); [|assumption|lia|lia].
  destruct (Z.to_nat max - k)%nat as [|fuel] eqn:Hf; [lia|].
  rewrite retry_loop_S. cbv zeta.
  rewrite (try_batch_refused b _ e) by assumption.
  cbn [fst snd ckpt served trace].
  assert (H1 : (0 + Z.of_nat k <? max)%Z = true) by (apply Z.ltb_lt; lia).
  rewrite H1.
  assert (H2 : is_retryable e && (0 + Z.of_nat k <? max - 1)%Z = false).
  { destruct Hlast as [->|Hl]; [reflexivity|].
    apply andb_false_intro2. apply Z.ltb_ge. lia. }
  rewrite H2. f_equal. f_equal; [lia|]. now rewrite <- !app_assoc.
Qed.

(** Where the retryable failures of the sink stop, within [m] calls. *)
Lemma first_stop (n0 m : nat) :
  exists k, (k <= m)%nat /\
    (forall j, (j < k)%nat ->
       exists e, sink (n0 + j) = Some e /\ is_retryable e = true) /\
    (k = m \/ sink (n0 + k) = None \/
     exists e, sink (n0 + k) = Some e /\ is_retryable e = false).
Proof.
  induction m as [|m (k & Hk & Hfail & Hstop)].
  - exists 0%nat. split; [lia|]. split; [intros j Hj; lia|now left].
  - destruct Hstop as [->|Hstop].
    + destruct (sink (n0 + m)) as [e|] eqn:Hs.
      * destruct (is_retryable e) eqn:He.
        -- exists (S m). split; [lia|]. split; [|now left].
           intros j Hj. destruct (Nat.eq_dec j m) as [->|Hne];
             [now exists e|apply Hfail; lia].
        -- exists m. split; [lia|]. split; [assumption|].
           right; right. now exists e.
      * exists m. split; [lia|]. split; [assumption|now right; left].
    + exists k. split; [lia|]. split; [assumption|now right].
Qed.

(** The call on a batch that is not empty when no write raises: [k]
    retryable failures of the sink, then one of three endings. *)
Lemma upsert_with_retry_spec (b : @DeliveryBatch Vector) (max d : Z)
    (w : @World Vector) :
  b <> [] -> (0 <= d)%Z -> disk_ok disk ->
  exists k : nat,
    (forall j, (j < k)%nat ->
       exists e, sink (served w + j) = Some e /\ is_retryable e = true) /\
    (((max <= 0)%Z /\ k = 0%nat /\
        upsert_with_retry sink disk b max d w = (Ret 0, w))
     \/
     ((Z.of_nat k < max)%Z /\
        upsert_with_retry sink disk b max d w =
        (Ret (Z.of_nat (List.length b)),
         mkWorld (save_processed_ids (map item_id b) (ckpt w))
                 (served w + k + 1)
                 (trace w ++ failed_attempts sink b (served w) d 0 k
                         ++ [EvUpsert b None; EvAppend (map item_id b) None])))
     \/
     ((Z.of_nat k < max)%Z /\
        exists e,
          upsert_with_retry sink disk b max d w =
          (Ret 0,
           mkWorld (ckpt w) (served w + k + 1)
                   (trace w ++ failed_attempts sink b (served w) d 0 k
                           ++ [EvUpsert b (Some e)])))).
Proof.
  intros Hb Hd Hok. destruct (Z_le_gt_dec max 0) as [Hle|Hgt].
  - exists 0%nat. split; [intros j Hj; lia|]. left.
    repeat split; [assumption|].
    rewrite (upsert_with_retry_loop b max d w Hb).
    replace (Z.to_nat max) with 0%nat by lia. reflexivity.
  - destruct (first_stop (served w) (Z.to_nat (max - 1)))
      as (k & Hk & Hfail & Hstop).
    exists k. split; [assumption|]. right.
    destruct Hstop as [->|[Hs|(e & Hs & He)]].
    + destruct (sink (served w + Z.to_nat (max - 1))) as [e|] eqn:Hs.
      * right. split; [lia|]. exists e.
        apply upsert_with_retry_fail_at; try assumption; [lia|right; lia].
      * left. split; [lia|].
        apply upsert_with_retry_ok_at; try assumption. lia.
    + left. split; [lia|].
      apply upsert_with_retry_ok_at; try assumption. lia.
    + right. split; [lia|]. exists e.
      apply upsert_with_retry_fail_at; try assumption; [lia|now left].
Qed.

(** The call, whatever the sink and the file system answer. *)
Lemma upsert_with_retry_shape (b : @DeliveryBatch Vector) (max d : Z)
    (w : @World Vector) :
  (0 <= d)%Z ->
  exists n w' T,
    upsert_with_retry sink disk b max d w = (Ret n, w') /\
    trace w' = trace w ++ T /\
    (n = 0%Z \/ n = Z.of_nat (List.length b)) /\
    (forall x, In x (upserts T) -> fst x = b) /\
    (forall id_val, In id_val (appended T) -> In id_val (map item_id b)) /\
    ckpt w' = (ckpt w ++ ids_text (appended T))%string /\
    served w' = (served w + List.length (upserts T))%nat /\
    (List.length (upserts T) <= Z.to_nat max)%nat /\
    (T = [] \/
     (pattern T = backoff_pattern d 0 (List.length (upserts T) - 1) /\
      (1 <= List.length (upserts T))%nat)) /\
    appends_follow_success false T = true /\
    n = Z.of_nat (List.length (completed T)).
Proof.
  intros Hd. destruct b as [|x b].
  - exists 0%Z, w, []. cbn. rewrite app_nil_r, string_app_nil_r.
    repeat split; try (now left); try lia; intros ? [].
  - rewrite (upsert_with_retry_loop (x :: b) max d w ltac:(discriminate)).
    destruct (retry_loop_shape (x :: b) max d Hd (Z.to_nat max) 0%Z w
                ltac:(lia))
      as (n & w' & T & H1 & H2 & H3 & H4 & H5 & H6 & H7 & H8 & H9 & H10
          & H11).
    exists n, w', T. rewrite Z.sub_0_r in H8.
    repeat split; try assumption.
    destruct H9 as [(-> & _)|H9]; [now left|now right].
Qed.

(** An append in a prefix of a well-ordered trace has an accepted upsert
    before it. *)
Lemma appends_after_success (p q : list (@event Vector)) :
  forall accepted : bool,
    appends_follow_success accepted (p ++ q) = true ->
    appended p <> [] ->
    accepted = true \/ exists b', In (EvUpsert b' None) p.
Proof.
  induction p as [|[b' [e|]|d|written e] p IH]; intros accepted Hord Hne.
  - now elim Hne.
  - destruct (IH false Hord Hne) as [H|(b2 & H)]; [discriminate|].
    right. exists b2. now right.
  - right. exists b'. now left.
  - destruct (IH false Hord Hne) as [H|(b2 & H)]; [discriminate|].
    right. exists b2. now right.
  - cbn in Hord. apply andb_prop in Hord. now left.
Qed.

(** C10: on an empty batch [upsert_with_retry] returns 0 and leaves the
    world as it found it: the sink has served no further call, the trace has
    no further upsert, sleep or append, and the checkpoint file is the
    same. *)
Theorem upsert_with_retry_empty (max_retries initial_delay : Z)
    (w : @World Vector) :
  let r := upsert_with_retry sink disk [] max_retries initial_delay w in
  fst r = Ret 0 /\
  snd r = w /\
  served (snd r) = served w /\
  upserts (trace (snd r)) = upserts (trace w) /\
  sleeps (trace (snd r)) = sleeps (trace w) /\
  appended (trace (snd r)) = appended (trace w) /\
  ckpt (snd r) = ckpt w.
Proof.
  assert (H : upsert_with_retry sink disk [] max_retries initial_delay w
              = (Ret 0, w)) by reflexivity.
  cbv zeta. rewrite H. repeat split.
Qed.

(** C1, as the code has it.  In every call on a batch that is not empty, an
    id is appended only after an upsert of the batch that the sink accepted,
    the ids appended are ids of the batch, and the file grows by exactly the
    lines of the ids appended.  When no operation on the checkpoint file
    raises, the call ends in exactly one of two ways: the sink accepted the
    batch, the file has grown by the lines of all its ids, written by the
    append that closes the call, and the batch size is returned; or no
    upsert succeeded, nothing was appended and 0 is returned. *)
Theorem deliver_all_or_nothing (b : @DeliveryBatch Vector)
    (max_retries initial_delay : Z) (w : @World Vector) :
  b <> [] -> (0 <= initial_delay)%Z ->
  let ids := map item_id b in
  let r := upsert_with_retry sink disk b max_retries initial_delay w in
  exists T : list event,
    trace (snd r) = trace w ++ T /\
    (forall p q, T = p ++ q -> appended p <> [] -> In (EvUpsert b None) p) /\
    (forall id_val, In id_val (appended T) -> In id_val ids) /\
    ckpt (snd r) =
      (ckpt w ++
       String.concat EmptyString
         (map (fun id_val => id_val ++ String PyStr.LF EmptyString)
              (appended T)))%string /\
    (disk_ok disk ->
     (fst r = Ret (Z.of_nat (List.length b)) /\
      appended T = ids /\
      exists F, T = F ++ [EvUpsert b None; EvAppend ids None] /\
                appended F = [] /\
                forall x, In x (upserts F) -> snd x <> None)
     \/
     (fst r = Ret 0 /\
      appended T = [] /\
      forall x, In x (upserts T) -> snd x <> None)) /\
    Z.of_nat (List.length b) <> 0%Z.
Proof.
  intros Hb Hd ids r.
  assert (Hlen : Z.of_nat (List.length b) <> 0%Z)
    by (destruct b; [contradiction|simpl; lia]).
  destruct (upsert_with_retry_shape b max_retries initial_delay w Hd)
    as (n & w' & T & Hrun & Ht & _ & Hbs & Hids & Hck & _ & _ & _ & Hord
        & _).
  subst r. rewrite Hrun. cbn [fst snd]. exists T.
  split; [assumption|]. split; [|split; [assumption|split; [|split]]].
  - intros p q -> Hp.
    destruct (appends_after_success p q false Hord Hp) as [H|(b' & Hin)];
      [discriminate|].
    assert (Hb' : In (b', @None string) (upserts (p ++ q))).
    { rewrite upserts_app. apply in_or_app. left. clear -Hin.
      induction p as [|[b2 r2|d|wr e] p IH]; [contradiction| | |].
      - destruct Hin as [Heq|Hin]; [injection Heq as -> ->; now left|].
        right. now apply IH.
      - destruct Hin as [Heq|Hin]; [discriminate|now apply IH].
      - destruct Hin as [Heq|Hin]; [discriminate|now apply IH]. }
    apply Hbs in Hb'. cbn in Hb'. now subst b'.
  - now rewrite Hck, ids_text_concat.
  - intros Hok.
    destruct (upsert_with_retry_spec b max_retries initial_delay w Hb Hd Hok)
      as (k & Hfail & Hend).
    set (F := failed_attempts sink b (served w) initial_delay 0 k) in *.
    assert (HF : appended F = []) by apply failed_attempts_appended.
    assert (HU : forall x, In x (upserts F) -> snd x <> None)
      by (apply failed_attempts_all_fail; assumption).
    destruct Hend as [(_ & _ & H)|[(_ & H)|(_ & e & H)]];
      rewrite H in Hrun; injection Hrun as <- <-; cbn [trace] in Ht.
    + right. rewrite <- (app_nil_r (trace w)) in Ht at 1.
      apply app_inv_head in Ht. subst T.
      repeat split. intros x [].
    + left. apply app_inv_head in Ht. subst T.
      repeat split.
      * rewrite appended_app, HF. cbn. now rewrite app_nil_r.
      * exists F. repeat split; assumption.
    + right. apply app_inv_head in Ht. subst T.
      repeat split.
      * rewrite appended_app, HF. reflexivity.
      * intros x Hx. rewrite upserts_app in Hx. apply in_app_or in Hx.
        destruct Hx as [Hx|[<-|[]]]; [now apply HU|discriminate].
  - assumption.
Qed.

Lemma firstn_seq_le (n k : nat) :
  forall s : nat, (n <= k)%nat -> firstn n (seq s k) = seq s n.
Proof.
  revert k. induction n as [|n IH]; intros k s Hle; [reflexivity|].
  destruct k as [|k]; [lia|]. cbn [seq firstn]. f_equal. apply IH. lia.
Qed.

(** After [n] retryable failures of the sink with a retry left, a further
    attempt is made. *)
Lemma attempts_after_failures (b : @DeliveryBatch Vector) (max d : Z)
    (w : @World Vector) (n : nat) (T : list (@event Vector)) :
  b <> [] -> (0 <= d)%Z ->
  (forall j, (j < n)%nat ->
     exists e, sink (served w + j) = Some e /\ is_retryable e = true) ->
  (Z.of_nat n < max)%Z ->
  trace (snd (upsert_with_retry sink disk b max d w)) = trace w ++ T ->
  (n < List.length (upserts T))%nat.
Proof.
  intros Hb Hd Hfail Hn HT.
  rewrite (upsert_with_retry_loop b max d w Hb),
    (retry_loop_skip b max d Hd n) in HT; [|assumption|lia|lia].
  destruct (retry_loop_shape b max d Hd (Z.to_nat max - n) (0 + Z.of_nat n)%Z
              (mkWorld (ckpt w) (served w + n)
                 (trace w ++ failed_attempts sink b (served w) d 0 n))
              ltac:(lia))
    as (m & w' & T' & Hrun & Ht & _ & _ & _ & _ & _ & _ & Hpat & _).
  rewrite Hrun in HT. cbn [snd] in HT. rewrite Ht in HT. cbn [trace] in HT.
  rewrite <- app_assoc in HT. apply app_inv_head in HT. subst T.
  rewrite upserts_app, length_app, failed_attempts_upserts, length_map,
    length_seq.
  destruct Hpat as [(_ & Hge)|(_ & Hone)]; lia.
Qed.

(** C3, as the code has it.  First part: with [max_retries = 3], when the
    sink raises a retryable error on the first two attempts and accepts the
    third, and no operation on the checkpoint file raises, the call is
    upsert, sleep, upsert, sleep, upsert, append: it returns the batch size,
    the sink has served three calls and no fourth, and the file has grown by
    one line per id of the batch, written once.  Second part: when every
    attempt fails with a retryable error, the sink is called exactly
    [max_retries] times, the call returns 0, nothing is appended and the file
    is the one the call found. *)
Theorem retry_until_success_or_exhaustion :
  (forall (b : @DeliveryBatch Vector) (initial_delay : Z) (w : @World Vector)
          (e1 e2 : string),
      b <> [] -> (0 <= initial_delay)%Z -> disk_ok disk ->
      sink (served w) = Some e1 -> is_retryable e1 = true ->
      sink (served w + 1) = Some e2 -> is_retryable e2 = true ->
      sink (served w + 2) = None ->
      let r := upsert_with_retry sink disk b 3 initial_delay w in
      fst r = Ret (Z.of_nat (List.length b)) /\
      trace (snd r) =
        trace w ++ [EvUpsert b (Some e1); EvSleep (actual_delay initial_delay 1);
                    EvUpsert b (Some e2); EvSleep (actual_delay initial_delay 2);
                    EvUpsert b None; EvAppend (map item_id b) None] /\
      ckpt (snd r) =
        (ckpt w ++
         String.concat EmptyString
           (map (fun id_val => id_val ++ String PyStr.LF EmptyString)
                (map item_id b)))%string /\
      served (snd r) = (served w + 3)%nat) /\
  (forall (b : @DeliveryBatch Vector) (max_retries initial_delay : Z)
          (w : @World Vector),
      b <> [] -> (0 <= initial_delay)%Z -> (0 <= max_retries)%Z ->
      (forall j, (Z.of_nat j < max_retries)%Z ->
         exists e, sink (served w + j) = Some e /\ is_retryable e = true) ->
      let r := upsert_with_retry sink disk b max_retries initial_delay w in
      exists T,
        trace (snd r) = trace w ++ T /\
        fst r = Ret 0 /\
        List.length (upserts T) = Z.to_nat max_retries /\
        served (snd r) = (served w + Z.to_nat max_retries)%nat /\
        appended T = [] /\
        ckpt (snd r) = ckpt w).
Proof.
  split.
  - intros b d w e1 e2 Hb Hd Hok H1 R1 H2 R2 H3 r. subst r.
    rewrite (upsert_with_retry_ok_at b 3 d w 2 Hb Hd Hok); [| |lia|assumption].
    + cbn [fst snd trace ckpt served failed_attempts].
      rewrite H1. replace (S (served w)) with (served w + 1)%nat by lia.
      rewrite H2, save_processed_ids_text, ids_text_concat.
      repeat split. lia.
    + intros [|[|j]] Hj; [| |lia].
      * exists e1. rewrite Nat.add_0_r. now split.
      * exists e2. now split.
  - intros b max d w Hb Hd Hmax Hfail r. subst r.
    destruct (Z.eq_dec max 0) as [->|Hne].
    + exists []. destruct b; [contradiction|]. cbn.
      rewrite app_nil_r. repeat split. lia.
    + destruct (Hfail (Z.to_nat (max - 1)) ltac:(lia)) as (e & He & Hre).
      rewrite (upsert_with_retry_fail_at b max d w (Z.to_nat (max - 1)) e Hb Hd);
        [| |lia|assumption|right; lia].
      * eexists. cbn [fst snd trace ckpt served]. split; [reflexivity|].
        repeat split.
        -- rewrite upserts_app, length_app, failed_attempts_upserts,
             length_map, length_seq. cbn. lia.
        -- lia.
        -- rewrite appended_app, failed_attempts_appended. reflexivity.
      * intros j Hj. apply Hfail. lia.
Qed.

(** C4: a call is upsert, sleep, upsert, ..., upsert: before each retry, and
    only there, it sleeps, the sleep before retry number j lasting
    [min (initial_delay * 2^j) 60] seconds.  There are at most [max_retries]
    attempts, so fewer sleeps than [max_retries], and every retryable failure
    of the sink that leaves a retry is followed by one; with the defaults 3
    and 5 the sleeps are 10 and 20.  The delay does not decrease with the
    retry number, never exceeds 60, and once at 60 it stays there. *)
Theorem backoff_delays (b : @DeliveryBatch Vector)
    (max_retries initial_delay : Z) (w : @World Vector) :
  (0 <= initial_delay)%Z ->
  let r := upsert_with_retry sink disk b max_retries initial_delay w in
  let delay := fun j : nat => Z.min (initial_delay * 2 ^ Z.of_nat j) 60 in
  (exists T,
     trace (snd r) = trace w ++ T /\
     let k := (List.length (upserts T) - 1)%nat in
     (T = [] \/
      pattern T = flat_map (fun j => [None; Some (delay j)]) (seq 1 k)
                  ++ [None]) /\
     sleeps T = map delay (seq 1 k) /\
     (List.length (upserts T) <= Z.to_nat max_retries)%nat /\
     (forall n : nat,
        b <> [] -> (Z.of_nat n < max_retries)%Z ->
        (forall j, (j < n)%nat ->
           exists e, sink (served w + j) = Some e /\ is_retryable e = true) ->
        (n <= k)%nat /\ firstn n (sleeps T) = map delay (seq 1 n)) /\
     (max_retries = 3%Z -> initial_delay = 5%Z ->
      sleeps T = firstn k [10; 20]%Z)) /\
  (forall j, (0 <= j)%Z ->
     actual_delay initial_delay j = Z.min (initial_delay * 2 ^ j) 60 /\
     (actual_delay initial_delay j <= actual_delay initial_delay (j + 1))%Z /\
     (actual_delay initial_delay j <= 60)%Z) /\
  (forall i j, (0 <= i <= j)%Z ->
     actual_delay initial_delay i = 60%Z ->
     actual_delay initial_delay j = 60%Z).
Proof.
  intros Hd r delay.
  assert (Hmono : forall i j, (0 <= i <= j)%Z ->
            (initial_delay * 2 ^ i <= initial_delay * 2 ^ j)%Z).
  { intros i j Hij. apply Z.mul_le_mono_nonneg_l; [assumption|].
    apply Z.pow_le_mono_r; lia. }
  split; [|split].
  - destruct (upsert_with_retry_shape b max_retries initial_delay w Hd)
      as (n & w' & T & Hrun & Ht & _ & _ & _ & _ & _ & Hlen & Hpat & _).
    assert (HT : trace (snd r) = trace w ++ T)
      by (subst r; now rewrite Hrun).
    exists T. split; [assumption|]. cbv zeta.
    assert (Hbp : forall k,
              backoff_pattern initial_delay 0 k =
              flat_map (fun j => [None; Some (delay j)]) (seq 1 k) ++ [None]).
    { intros k. reflexivity. }
    assert (Hsl : sleeps T =
                  map delay (seq 1 (List.length (upserts T) - 1))).
    { destruct Hpat as [->|(Hpat & _)]; [reflexivity|].
      rewrite sleeps_pattern, Hpat, lengths_backoff_pattern.
      apply map_ext. intros j. reflexivity. }
    split; [|split; [assumption|split; [assumption|split]]].
    + destruct Hpat as [->|(Hpat & _)]; [now left|right].
      now rewrite Hpat, Hbp.
    + intros m Hb Hm Hfail.
      pose proof (attempts_after_failures b max_retries initial_delay w m T
                    Hb Hd Hfail Hm HT) as Hlt.
      split; [lia|]. rewrite Hsl, firstn_map, firstn_seq_le by lia.
      reflexivity.
    + intros -> ->. rewrite Hsl.
      destruct (List.length (upserts T)) as [|[|[|[|k]]]]; try reflexivity.
      simpl in Hlen. lia.
  - intros j Hj. unfold actual_delay. split; [reflexivity|]. split; [|lia].
    specialize (Hmono j (j + 1)%Z ltac:(lia)). lia.
  - intros i j Hij. unfold actual_delay. intros Hi.
    specialize (Hmono i j Hij). lia.
Qed.

End DeliveryFacts.

Lemma deliver_all_or_nothing_witness :
  let b := [mkItem "p1" tt []; mkItem "p2" tt []] in
  let ids := map item_id b in
  let r := upsert_with_retry (fun _ => None) sample_disk b 3 5 sample_world in
  exists T : list event,
    trace (snd r) = trace sample_world ++ T /\
    (forall p q, T = p ++ q -> appended p <> [] -> In (EvUpsert b None) p) /\
    (forall id_val, In id_val (appended T) -> In id_val ids) /\
    ckpt (snd r) =
      (ckpt sample_world ++
       String.concat EmptyString
         (map (fun id_val => id_val ++ String PyStr.LF EmptyString)
              (appended T)))%string /\
    (disk_ok sample_disk ->
     (fst r = Ret (Z.of_nat (List.length b)) /\
      appended T = ids /\
      exists F, T = F ++ [EvUpsert b None; EvAppend ids None] /\
                appended F = [] /\
                forall x, In x (upserts F) -> snd x <> None)
     \/
     (fst r = Ret 0 /\
      appended T = [] /\
      forall x, In x (upserts T) -> snd x <> None)) /\
    Z.of_nat (List.length b) <> 0%Z.
Proof.
  apply (deliver_all_or_nothing (fun _ => None) sample_disk
           [mkItem "p1" tt []; mkItem "p2" tt []] 3 5 sample_world);
    [discriminate|lia].
Defined.

(** The sink accepts a batch of two and the second write to the checkpoint
    file raises, as it does when the file is opened with an ASCII encoding
    and the second id has a letter outside ASCII: the call returns 0 with
    the first id in the file. *)
Lemma write_error_leaves_part_of_batch :
  let e_acute := ascii_of_nat 233 in
  let id2 := ("caf" ++ String e_acute EmptyString)%string in
  let b := [mkItem "p1" tt []; mkItem id2 tt []] in
  let refused :=
    "'ascii' codec can't encode character '\xe9' in position 3: ordinal not in range(128)" in
  let disk := fun _ j : nat => if (j =? 2)%nat then Some refused else None in
  let r := upsert_with_retry (fun _ => None) disk b 3 5 sample_world in
  fst r = Ret 0 /\
  trace (snd r) = [EvUpsert b None; EvAppend ["p1"] (Some refused)] /\
  ckpt (snd r) = String "p" (String "1" (String PyStr.LF EmptyString)) /\
  appended (trace (snd r)) = ["p1"] /\
  ~ ((fst r = Ret 2 /\ appended (trace (snd r)) = ["p1"; id2]) \/
     (fst r = Ret 0 /\ appended (trace (snd r)) = [])).
Proof.
  vm_compute. repeat split. intros [[H _]|[_ H]]; discriminate.
Qed.

Lemma retry_until_success_or_exhaustion_witness :
  let b := [mkItem "p1" tt []] in
  let w := sample_world in
  (let sink := fun n : nat =>
       if (n <? 2)%nat then Some "Read timeout" else None in
   let r := upsert_with_retry sink sample_disk b 3 5 w in
   fst r = Ret 1 /\
   trace (snd r) =
     [EvUpsert b (Some "Read timeout"); EvSleep 10;
      EvUpsert b (Some "Read timeout"); EvSleep 20;
      EvUpsert b None; EvAppend ["p1"] None] /\
   ckpt (snd r) = String "p" (String "1" (String PyStr.LF EmptyString)) /\
   served (snd r) = 3%nat) /\
  (let sink := fun _ : nat => Some "Connection reset" in
   let r := upsert_with_retry sink sample_disk b 3 5 w in
   exists T,
     trace (snd r) = trace w ++ T /\
     fst r = Ret 0 /\
     List.length (upserts T) = 3%nat /\
     served (snd r) = 3%nat /\
     appended T = [] /\
     ckpt (snd r) = "").
Proof.
  split.
  - apply (proj1 (retry_until_success_or_exhaustion
                    (fun n : nat =>
                       if (n <? 2)%nat then Some "Read timeout" else None)
                    sample_disk)
             [mkItem "p1" tt []] 5%Z sample_world
             "Read timeout" "Read timeout");
      try reflexivity; [discriminate|lia|intros n j; reflexivity].
  - apply (proj2 (retry_until_success_or_exhaustion
                    (fun _ : nat => Some "Connection reset") sample_disk)
             [mkItem "p1" tt []] 3%Z 5%Z sample_world);
      [discriminate|lia|lia|].
    intros j _. exists "Connection reset". split; reflexivity.
Defined.

(** Two timeouts, then the sink accepts the batch and opening the checkpoint
    file raises, as it does when the file is read-only: three attempts are
    made, the call returns 0 and no id is in the file. *)
Lemma accepted_batch_lost_on_write_error :
  let b := [mkItem "p1" tt []] in
  let sink := fun n : nat =>
    if (n <? 2)%nat then Some "Read timeout" else None in
  let denied := "[Errno 13] Permission denied: 'processed_post_ids.txt'" in
  let disk := fun _ j : nat => if (j =? 0)%nat then Some denied else None in
  let r := upsert_with_retry sink disk b 3 5 sample_world in
  is_retryable "Read timeout" = true /\
  sink 2%nat = None /\
  fst r = Ret 0 /\
  fst r <> Ret (Z.of_nat (List.length b)) /\
  trace (snd r) =
    [EvUpsert b (Some "Read timeout"); EvSleep 10;
     EvUpsert b (Some "Read timeout"); EvSleep 20;
     EvUpsert b None; EvAppend [] (Some denied)] /\
  ckpt (snd r) = "" /\
  appended (trace (snd r)) = [].
Proof.
  vm_compute. repeat split. discriminate.
Qed.

Lemma backoff_delays_witness :
  let b := [mkItem "p1" tt []] in
  let w := sample_world in
  let sink := fun _ : nat => Some "Connection reset" in
  let r := upsert_with_retry sink sample_disk b 3 5 w in
  let delay := fun j : nat => Z.min (5 * 2 ^ Z.of_nat j) 60 in
  (exists T,
     trace (snd r) = trace w ++ T /\
     let k := (List.length (upserts T) - 1)%nat in
     (T = [] \/
      pattern T = flat_map (fun j => [None; Some (delay j)]) (seq 1 k)
                  ++ [None]) /\
     sleeps T = map delay (seq 1 k) /\
     (List.length (upserts T) <= Z.to_nat 3)%nat /\
     (forall n : nat,
        b <> [] -> (Z.of_nat n < 3)%Z ->
        (forall j, (j < n)%nat ->
           exists e, sink (served w + j)%nat = Some e /\
                     is_retryable e = true) ->
        (n <= k)%nat /\ firstn n (sleeps T) = map delay (seq 1 n)) /\
     (3%Z = 3%Z -> 5%Z = 5%Z -> sleeps T = firstn k [10; 20]%Z)) /\
  (forall j, (0 <= j)%Z ->
     actual_delay 5 j = Z.min (5 * 2 ^ j) 60 /\
     (actual_delay 5 j <= actual_delay 5 (j + 1))%Z /\
     (actual_delay 5 j <= 60)%Z) /\
  (forall i j, (0 <= i <= j)%Z ->
     actual_delay 5 i = 60%Z -> actual_delay 5 j = 60%Z).
Proof.
  apply (backoff_delays (fun _ : nat => Some "Connection reset") sample_disk
           [mkItem "p1" tt []] 3 5 sample_world).
  lia.
Defined.

(** ** Chunks *)

(** What [split_batches] cuts: the batches have exactly [size] items, fewer
    than [size] items are left, and nothing is lost or reordered. *)
Lemma split_batches_spec {A : Type} (size : nat) (xs : list A) :
  (0 < size)%nat ->
  forall buf : list A,
    (List.length buf < size)%nat ->
    List.concat (fst (split_batches size buf xs)) ++ snd (split_batches size buf xs)
      = buf ++ xs /\
    Forall (fun b => List.length b = size) (fst (split_batches size buf xs)) /\
    (List.length (snd (split_batches size buf xs)) < size)%nat.
Proof.
  intros Hsize. induction xs as [|x xs IH]; intros buf Hbuf.
  - cbn. rewrite app_nil_r. repeat split; [constructor|assumption].
  - cbn [split_batches].
    destruct (Nat.leb_spec size (List.length (buf ++ [x]))) as [Hle|Hlt].
    + destruct (IH [] Hsize) as (Hc & Hf & Hr).
      destruct (split_batches size [] xs) as [bs rest].
      cbn [fst snd List.concat] in *. repeat split.
      * rewrite <- !app_assoc. cbn [app]. do 2 f_equal. exact Hc.
      * constructor; [|assumption].
        rewrite length_app in *. cbn [List.length] in *. lia.
      * assumption.
    + destruct (IH (buf ++ [x]) Hlt) as (Hc & Hf & Hr).
      repeat split; [|assumption..]. rewrite Hc, <- app_assoc. reflexivity.
Qed.


Lemma firstn_plus {A : Type} (n m : nat) :
  forall l : list A, firstn (n + m) l = firstn n l ++ firstn m (skipn n l).
Proof.
  induction n as [|n IH]; intros l; [reflexivity|].
  destruct l as [|x l]; cbn [Nat.add firstn skipn app].
  - now rewrite firstn_nil.
  - now rewrite IH.
Qed.

Lemma concat_slices {A : Type} (step : nat) (l : list A) (n : nat) :
  List.concat (map (fun i => iloc i (i + step) l)
                   (map (fun k => k * step) (seq 0 n))) =
  firstn (n * step) l.
Proof.
  induction n as [|n IH]; [reflexivity|].
  rewrite seq_S, !map_app, concat_app, IH. cbn [map List.concat Nat.add].
  rewrite app_nil_r. unfold iloc.
  replace (n * step + step - n * step) with step by lia.
  replace (S n * step) with (n * step + step) by lia.
  now rewrite firstn_plus.
Qed.

Lemma concat_filter_nonempty {A : Type} (ls : list (list A)) :
  List.concat (filter (fun c => negb (is_nil c)) ls) = List.concat ls.
Proof.
  induction ls as [|[|x c] ls IH]; cbn; [reflexivity|exact IH|now rewrite IH].
Qed.

Lemma range_step_covers (n step : nat) :
  (0 < step)%nat -> (n <= (n + step - 1) / step * step)%nat.
Proof.
  intros Hs.
  pose proof (Nat.div_mod_eq (n + step - 1) step) as Hd.
  pose proof (Nat.mod_upper_bound (n + step - 1) step ltac:(lia)) as Hm.
  nia.
Qed.

(** The chunks sent to the embedding provider are the frame, cut in order. *)
Lemma chunks_partition (df : list Row) :
  List.concat (all_original_data_batches df) = df.
Proof.
  unfold all_original_data_batches, range_step.
  rewrite concat_filter_nonempty, concat_slices.
  apply firstn_all2. apply range_step_covers.
  unfold OPENAI_EMBEDDING_BATCH_SIZE. lia.
Qed.

Lemma chunks_of_250 (df : list Row) :
  List.length df = 250%nat ->
  all_original_data_batches df =
  [firstn 100 df; firstn 100 (skipn 100 df); skipn 200 df].
Proof.
  intros Hlen. unfold all_original_data_batches. rewrite Hlen.
  change (range_step 250 OPENAI_EMBEDDING_BATCH_SIZE) with [0; 100; 200]%nat.
  unfold OPENAI_EMBEDDING_BATCH_SIZE, iloc. cbn [map].
  replace (0 + 100 - 0)%nat with 100%nat by lia.
  replace (100 + 100 - 100)%nat with 100%nat by lia.
  replace (200 + 100 - 200)%nat with 100%nat by lia.
  change (skipn 0 df) with df.
  assert (H3 : firstn 100 (skipn 200 df) = skipn 200 df)
    by (apply firstn_all2; rewrite length_skipn; lia).
  rewrite H3.
  assert (Hne : forall c : list Row,
            (0 < List.length c)%nat -> negb (is_nil c) = true)
    by (intros [|x c] Hc; [cbn in Hc; lia|reflexivity]).
  cbn [filter].
  rewrite !Hne; [reflexivity| | |].
  - rewrite length_skipn. lia.
  - rewrite length_firstn, length_skipn. lia.
  - rewrite length_firstn. lia.
Qed.

Lemma flat_map_nth_error {A B : Type} (h : A -> list B) (l : list A) :
  flat_map (fun i => match nth_error l i with
                     | Some x => h x
                     | None => []
                     end) (seq 0 (List.length l)) =
  flat_map h l.
Proof.
  induction l as [|x l IH]; [reflexivity|].
  cbn [List.length seq flat_map nth_error]. f_equal.
  rewrite <- seq_shift, flat_map_concat_map, map_map, <- flat_map_concat_map.
  exact IH.
Qed.

Lemma length_concat_uniform {A : Type} (size : nat) (bs : list (list A)) :
  Forall (fun b => List.length b = size) bs ->
  List.length (List.concat bs) = (size * List.length bs)%nat.
Proof.
  induction 1 as [|b bs Hb _ IH]; cbn [List.concat List.length]; [lia|].
  rewrite length_app, IH, Hb. lia.
Qed.

(** 250 items make two batches of 100 and leave 50 in the buffer. *)
Lemma split_250 {A : Type} (xs : list A) :
  List.length xs = 250%nat ->
  exists b1 b2 b3,
    split_batches PINECONE_UPSERT_BATCH_SIZE [] xs = ([b1; b2], b3) /\
    List.length b1 = 100%nat /\ List.length b2 = 100%nat /\
    List.length b3 = 50%nat /\ b1 ++ b2 ++ b3 = xs.
Proof.
  intros Hlen.
  destruct (split_batches_spec PINECONE_UPSERT_BATCH_SIZE xs
              ltac:(unfold PINECONE_UPSERT_BATCH_SIZE; lia) []
              ltac:(unfold PINECONE_UPSERT_BATCH_SIZE; cbn; lia))
    as (Hc & Hf & Hr).
  destruct (split_batches PINECONE_UPSERT_BATCH_SIZE [] xs) as [bs rest].
  cbn [fst snd app] in *. unfold PINECONE_UPSERT_BATCH_SIZE in *.
  pose proof (length_concat_uniform 100 bs Hf) as Hl.
  assert (Hx : (List.length (List.concat bs) + List.length rest = 250)%nat)
    by (rewrite <- length_app, Hc; exact Hlen).
  destruct bs as [|b1 [|b2 [|b3 bs]]]; cbn [List.length] in Hl; try lia.
  exists b1, b2, rest.
  pose proof (Forall_inv Hf) as H1.
  pose proof (Forall_inv (Forall_inv_tail Hf)) as H2. cbn beta in H1, H2.
  cbn [List.concat] in Hc, Hx. rewrite app_nil_r in Hc, Hx.
  rewrite length_app in Hx.
  repeat split; try assumption; [lia|].
  rewrite <- app_assoc in Hc. exact Hc.
Qed.

(** ** Filtering *)

Section LoadingFacts.

Variable repr_finite : spec_float -> string.

Lemma isin_nil (id_val : string) : isin id_val [] = false.
Proof. reflexivity. Qed.

Lemma resume_In (df : list Row) (processed : list string) (r : Row) :
  In r (resume repr_finite df processed) <->
  In r df /\ isin (row_key repr_finite r) processed = false.
Proof.
  unfold resume. destruct processed as [|x processed].
  - split; [intros H; now split|now intros [H _]].
  - rewrite filter_In, negb_true_iff. reflexivity.
Qed.

Lemma filter_length_split {A : Type} (f : A -> bool) (l : list A) :
  (List.length (filter f l) + List.length (filter (fun x => negb (f x)) l)
   = List.length l)%nat.
Proof.
  induction l as [|x l IH]; [reflexivity|].
  cbn [filter]. destruct (f x); cbn [negb List.length]; lia.
Qed.

(** C2, as the code has it: filtering keeps exactly the rows whose id is not
    in the set read from the checkpoint file.  An id appended to a file that
    was empty or ended with a line feed is in the set read back, and its
    row is filtered out, when the id is clean: not empty, untouched by
    [strip], without line break.  Of 250 rows with 50 checkpointed ids, 200
    are left, and the embedding chunks are those 200 rows cut in order. *)
Theorem filtering_excludes_checkpointed :
  (forall (df : list Row) (processed : list string) (r : Row),
      In r (resume repr_finite df processed) <->
      In r df /\ isin (row_key repr_finite r) processed = false) /\
  (forall (file : string) (ids : list string) (id_val : string)
          (df : list Row) (r : Row),
      terminated file -> In id_val ids -> clean_id id_val = true ->
      In r (resume repr_finite df
              (load_processed_ids (save_processed_ids ids file))) ->
      row_key repr_finite r <> id_val) /\
  (forall (df : list Row) (processed : list string),
      List.length df = 250%nat ->
      List.length
        (filter (fun r => isin (row_key repr_finite r) processed) df)
        = 50%nat ->
      List.length (resume repr_finite df processed) = 200%nat /\
      List.concat (all_original_data_batches
                     (resume repr_finite df processed))
        = resume repr_finite df processed).
Proof.
  split; [exact resume_In|]. split.
  - intros file ids id_val df r Hterm Hin Hclean Hr Heq.
    apply resume_In in Hr. destruct Hr as [_ Hr].
    rewrite Heq, (saved_id_is_loaded file ids id_val Hterm Hin Hclean) in Hr.
    discriminate.
  - intros df processed Hlen Hcount. split; [|apply chunks_partition].
    pose proof (filter_length_split
                  (fun r => isin (row_key repr_finite r) processed) df) as Hs.
    unfold resume. destruct processed as [|x processed].
    + rewrite (filter_ext _ (fun _ => false)) in Hcount
        by (intros a; apply isin_nil).
      rewrite filter_false in Hcount. discriminate.
    + lia.
Qed.

End LoadingFacts.

Lemma filtering_excludes_checkpointed_witness :
  let repr := fun _ : spec_float => "0.5" in
  (let file := save_processed_ids ["p1"; "p2"] "" in
   let r := mkRow (AStr "p3") (AStr "hello") [] in
   row_key repr r <> "p2") /\
  (let df := sample_frame 250 in
   let processed := map sample_key (seq 0 50) in
   List.length (resume repr df processed) = 200%nat /\
   List.concat (all_original_data_batches (resume repr df processed))
     = resume repr df processed).
Proof.
  pose proof (filtering_excludes_checkpointed (fun _ => "0.5"))
    as (_ & H2 & H3).
  split.
  - apply (H2 "" ["p1"; "p2"] "p2"
              [mkRow (AStr "p2") (AStr "hello") [];
               mkRow (AStr "p3") (AStr "hello") []]
              (mkRow (AStr "p3") (AStr "hello") [])).
    + now left.
    + right. now left.
    + reflexivity.
    + vm_compute. now left.
  - apply (H3 (sample_frame 250) (map sample_key (seq 0 50)));
      vm_compute; reflexivity.
Defined.

(** C2 as stated fails: the id of the row below was appended to the file, the
    loader strips the blank in front of it, and the row gets through the
    filter again. *)
Lemma checkpointed_id_with_blank_is_kept :
  let repr := fun _ : spec_float => "0.5" in
  let id_val := " 17" in
  let r := mkRow (AStr id_val) (AStr "hello") [] in
  let file := save_processed_ids [id_val] "" in
  load_processed_ids file = ["17"] /\
  resume repr [r] (load_processed_ids file) = [r] /\
  ~ (forall (ids : list string) (df : list Row) (r' : Row),
       In id_val ids ->
       In r' (resume repr df
                (load_processed_ids (save_processed_ids ids ""))) ->
       row_key repr r' <> id_val).
Proof.
  split; [reflexivity|]. split; [reflexivity|].
  intros H.
  apply (H [" 17"] [mkRow (AStr " 17") (AStr "hello") []]
           (mkRow (AStr " 17") (AStr "hello") [])).
  - now left.
  - vm_compute. now left.
  - reflexivity.
Qed.


(** ** Coercion and loading *)

(** On scalars the coercion does not raise, unless the value is missing and
    the column has an extension dtype: a missing value becomes the default
    of the column's dtype, a boolean, an integer, a float and a string go
    through, anything else becomes its [str]. *)
Lemma coerce_scalar (repr_finite : spec_float -> string)
    (empty_array_truth : option bool) (dt : dtype) (a : atom) :
  coerce repr_finite empty_array_truth dt (VAtom a) =
  if isna_atom a then
    match dt with
    | DNumber => Some (MInt 0)
    | DBool => Some (MBool false)
    | DOther => Some (MStr "")
    | DExtension => None
    end
  else
    Some match a with
         | ABool b => MBool b
         | AInt z => MInt z
         | AFloat f => MFloat f
         | AStr s => MStr s
         | _ => MStr (py_str repr_finite a)
         end.
Proof.
  unfold coerce, truth, pd_isna.
  destruct (isna_atom a) eqn:Ha; [now destruct dt|].
  destruct a; reflexivity || discriminate.
Qed.

(** A list of one element that is not missing has its element
    stringified. *)
Lemma coerce_singleton (repr_finite : spec_float -> string)
    (empty_array_truth : option bool) (dt : dtype) (a : atom) :
  isna_atom a = false ->
  coerce repr_finite empty_array_truth dt (VList [a])
    = Some (MList [py_str repr_finite a]).
Proof.
  intros Ha. unfold coerce, truth, pd_isna. cbn [map]. now rewrite Ha.
Qed.

(** A list of two or more elements makes the test of the first [if]
    raise. *)
Lemma coerce_long_list (repr_finite : spec_float -> string)
    (empty_array_truth : option bool) (dt : dtype) (a b : atom)
    (l : list atom) :
  coerce repr_finite empty_array_truth dt (VList (a :: b :: l)) = None.
Proof. reflexivity. Qed.

(** C6 fails on the code for a missing cell of a column with an extension
    dtype, which is what pandas 3.0 gives a text column: the branch for
    missing values asks [np.issubdtype] about the dtype, and that call
    raises.  The row below has an empty author cell; its payload is never
    built, the handler of the chunk prints the error, and the run ends with
    nothing upserted and nothing checkpointed. *)
Theorem coerce_raises_on_missing_text :
  let repr := fun _ : spec_float => "0.5" in
  let dtype_of := fun col_name : string =>
    if String.eqb col_name "likes" then DNumber else DExtension in
  let row := mkRow (AStr "p1") (AStr "hello")
                   [("likes", VAtom (AInt 3));
                    ("author", VAtom (AFloat S754_nan))] in
  let run := main repr None true dtype_of (fun _ => None) sample_disk
                  sample_provider [row] [0%nat] sample_world in
  pd_isna (VAtom (AFloat S754_nan)) = IsnaScalar true /\
  coerce repr None (dtype_of "author") (VAtom (AFloat S754_nan)) = None /\
  (forall (empty_array_truth : option bool) (a : atom),
      isna_atom a = true ->
      coerce repr empty_array_truth DExtension (VAtom a) = None) /\
  load_data repr true [row] = [row] /\
  metadata_payload repr None dtype_of row = None /\
  upserts (trace (world run)) = [] /\
  ckpt (world run) = "" /\
  processed_count_in_run run = 0%Z.
Proof.
  cbv zeta. repeat split; try reflexivity.
  intros eat a Ha. rewrite coerce_scalar, Ha. reflexivity.
Qed.

(** Rows without text are always dropped, and so are rows without
    identifier when the cast to strings keeps missing values. *)
Lemma load_data_drops (repr_finite : spec_float -> string) (keeps : bool)
    (raw : list Row) (r : Row) :
  In r (load_data repr_finite keeps raw) ->
  isna_atom (row_text r) = false /\
  (keeps = true ->
   exists r0, In r0 raw /\ isna_atom (row_id r0) = false /\
              isna_atom (row_text r0) = false).
Proof.
  intros Hr. unfold load_data, dropna, astype_id in Hr.
  apply filter_In in Hr. destruct Hr as [Hin Hr].
  apply andb_prop in Hr. destruct Hr as [Hid Htext].
  apply negb_true_iff in Hid, Htext. split; [assumption|].
  intros ->. apply in_map_iff in Hin. destruct Hin as (r0 & <- & Hin).
  cbn [row_id row_text] in Hid, Htext.
  exists r0. repeat split; try assumption.
  unfold astype_str in Hid.
  destruct (isna_atom (row_id r0)) eqn:E; [|reflexivity].
  cbn in Hid. congruence.
Qed.

(** C7 fails on the code for the identifier: the id column is cast to
    strings before [dropna] looks at it, so with a pandas that writes a
    missing value as its [str] a row without identifier is kept under the
    id nan, embedded, upserted and checkpointed. *)
Theorem null_identifier_survives_loading :
  let repr := fun _ : spec_float => "0.5" in
  let raw := [mkRow (AFloat S754_nan) (AStr "hello") []] in
  let run := main repr (Some false) false (fun _ => DOther) (fun _ => None)
                  sample_disk sample_provider raw [0%nat] sample_world in
  load_data repr false raw = [mkRow (AStr "nan") (AStr "hello") []] /\
  map (fun x => map item_id (fst x)) (upserts (trace (world run)))
    = [["nan"]] /\
  load_processed_ids (ckpt (world run)) = ["nan"].
Proof.
  split; [reflexivity|]. split; vm_compute; reflexivity.
Qed.

(** ** The run *)

Section PipelineFacts.

Context {Vector : Type}.

Variable repr_finite : spec_float -> string.
Variable empty_array_truth : option bool.
Variable dtype_of : string -> dtype.
Variable sink : nat -> option string.
Variable disk : nat -> nat -> option string.
Variable provider : nat -> list atom -> option (list Vector).

(** With the default delay no exception leaves [deliver]. *)
Lemma deliver_returns (b : @DeliveryBatch Vector) (w : @World Vector) :
  exists n w', deliver sink disk b w = (Ret n, w').
Proof.
  destruct (upsert_with_retry_shape sink disk b 3 5 w ltac:(lia))
    as (n & w' & T & H & _).
  now exists n, w'.
Qed.

Lemma deliver_step_eq (c : Z) (w : @World Vector) (b : @DeliveryBatch Vector)
    (n : Z) (w' : @World Vector) :
  deliver sink disk b w = (Ret n, w') ->
  deliver_step sink disk (c, w) b = ((if (0 <? n)%Z then c + n else c)%Z, w').
Proof. intros H. unfold deliver_step. cbn [fst snd]. now rewrite H. Qed.

Lemma flush_if_full_push (buf : @DeliveryBatch Vector) (x : DeliveryItem)
    (c : Z) (w : @World Vector) :
  flush_if_full sink disk (mkRun (buf ++ [x]) c w) = inl (push sink disk (mkRun buf c w) x).
Proof.
  unfold flush_if_full, push.
  cbn [vectors_to_upsert_buffer processed_count_in_run world].
  destruct (PINECONE_UPSERT_BATCH_SIZE <=? List.length (buf ++ [x]))%nat;
    [|reflexivity].
  destruct (buf ++ [x]) as [|y l] eqn:Hb; [now destruct buf|].
  destruct (deliver_returns (y :: l) w) as (n & w' & Hd).
  rewrite (deliver_step_eq c w (y :: l) n w' Hd), Hd. reflexivity.
Qed.

Lemma run_state_eta (st : @RunState Vector) :
  mkRun (vectors_to_upsert_buffer st) (processed_count_in_run st) (world st)
  = st.
Proof. destruct st; reflexivity. Qed.

Lemma process_items_feed (ids : list string) (rows : list Row)
    (embs : list Vector) :
  forall (idx : nat) (st : @RunState Vector),
    process_items repr_finite empty_array_truth dtype_of sink disk ids rows idx
                  embs st =
    feed sink disk (items_from repr_finite empty_array_truth dtype_of ids rows idx
                          embs) st.
Proof.
  induction embs as [|v embs IH]; intros idx st; [reflexivity|].
  cbn [process_items items_from].
  destruct (nth_error ids idx) as [pid|]; [|reflexivity].
  destruct (nth_error rows idx) as [row|]; [|reflexivity].
  destruct (metadata_payload _ _ _ row) as [payload|]; [|reflexivity].
  rewrite flush_if_full_push, IH, run_state_eta. reflexivity.
Qed.

Lemma process_future_feed (df : list Row) (i : nat) (st : @RunState Vector) :
  process_future repr_finite empty_array_truth dtype_of sink disk provider df i st =
  feed sink disk (future_items repr_finite empty_array_truth dtype_of provider df i)
       st.
Proof.
  unfold process_future, future_items.
  destruct (nth_error _ i) as [rows|]; [|reflexivity].
  destruct (embed provider i _) as [embs|]; [|reflexivity].
  apply process_items_feed.
Qed.

Lemma feed_app (xs ys : @DeliveryBatch Vector) (st : @RunState Vector) :
  feed sink disk (xs ++ ys) st = feed sink disk ys (feed sink disk xs st).
Proof. apply fold_left_app. Qed.

(** The embedding phase pushes the items of the futures, in the order the
    futures complete. *)
Lemma embedding_phase_feed (df : list Row) (order : list nat)
    (w0 : @World Vector) :
  embedding_phase repr_finite empty_array_truth dtype_of sink disk provider df
                  order w0 =
  feed sink disk (run_items repr_finite empty_array_truth dtype_of provider df order)
       (mkRun [] 0 w0).
Proof.
  unfold embedding_phase, run_items. generalize (mkRun [] 0 w0) as st.
  induction order as [|i order IH]; intros st; [reflexivity|].
  cbn [fold_left flat_map]. rewrite IH, process_future_feed, feed_app.
  reflexivity.
Qed.

(** Pushing items is delivering the batches [split_batches] cuts. *)
Lemma feed_split (xs : @DeliveryBatch Vector) :
  forall (buf : @DeliveryBatch Vector) (c : Z) (w : @World Vector),
    feed sink disk xs (mkRun buf c w) =
    let sp := split_batches PINECONE_UPSERT_BATCH_SIZE buf xs in
    let r := deliver_batches sink disk (fst sp) (c, w) in
    mkRun (snd sp) (fst r) (snd r).
Proof.
  induction xs as [|x xs IH]; intros buf c w; [reflexivity|].
  change (feed sink disk (x :: xs) (mkRun buf c w))
    with (feed sink disk xs (push sink disk (mkRun buf c w) x)).
  unfold push. cbn [split_batches vectors_to_upsert_buffer
                    processed_count_in_run world].
  destruct (PINECONE_UPSERT_BATCH_SIZE <=? List.length (buf ++ [x]))%nat.
  - cbv zeta. rewrite IH. cbv zeta.
    destruct (split_batches PINECONE_UPSERT_BATCH_SIZE [] xs) as [bs rest].
    cbn [fst snd deliver_batches fold_left].
    destruct (deliver_step sink disk (c, w) (buf ++ [x])); reflexivity.
  - apply IH.
Qed.

Lemma drain_step (buf : @DeliveryBatch Vector) (c : Z) (w : @World Vector) :
  drain sink disk (mkRun buf c w) =
  let r := deliver_batches sink disk (match buf with [] => [] | _ => [buf] end)
                           (c, w) in
  mkRun [] (fst r) (snd r).
Proof.
  unfold drain. cbn [vectors_to_upsert_buffer processed_count_in_run world].
  destruct buf as [|x buf]; [reflexivity|].
  destruct (deliver_returns (x :: buf) w) as (n & w' & Hd).
  cbn [deliver_batches fold_left].
  rewrite (deliver_step_eq c w (x :: buf) n w' Hd), Hd. reflexivity.
Qed.

(** A run on a frame that is not empty delivers the batches of its items one
    after the other, whatever the sink answers. *)
Lemma run_filtered_batches (df : list Row) (order : list nat)
    (w0 : @World Vector) :
  df <> [] ->
  run_filtered repr_finite empty_array_truth dtype_of sink disk provider df order w0
  = let items := run_items repr_finite empty_array_truth dtype_of provider
                           df order in
    let r := deliver_batches sink disk (delivery_batches items) (0%Z, w0) in
    mkRun [] (fst r) (snd r).
Proof.
  intros Hdf. unfold run_filtered. destruct df as [|r0 df']; [contradiction|].
  rewrite embedding_phase_feed, feed_split. cbv zeta.
  rewrite drain_step. cbv zeta. unfold delivery_batches.
  destruct (split_batches _ [] _) as [bs rest]. cbn [fst snd].
  unfold deliver_batches. rewrite fold_left_app.
  now rewrite <- surjective_pairing.
Qed.

Lemma save_processed_ids_app (a b : list string) (file : string) :
  save_processed_ids (a ++ b) file =
  save_processed_ids b (save_processed_ids a file).
Proof.
  revert file. induction a as [|x a IH]; intros file; [reflexivity|].
  cbn [app save_processed_ids]. apply IH.
Qed.

(** One delivery the sink accepts at once. *)
Lemma deliver_step_ok (b : @DeliveryBatch Vector) (c : Z) (w : @World Vector) :
  b <> [] -> disk_ok disk -> sink (served w) = None ->
  deliver_step sink disk (c, w) b =
  ((c + Z.of_nat (List.length b))%Z,
   mkWorld (save_processed_ids (map item_id b) (ckpt w)) (S (served w))
           (trace w ++ [EvUpsert b None; EvAppend (map item_id b) None])).
Proof.
  intros Hb Hok Hs.
  assert (Hd : deliver sink disk b w =
               (Ret (Z.of_nat (List.length b)),
                mkWorld (save_processed_ids (map item_id b) (ckpt w))
                        (S (served w))
                        (trace w ++ [EvUpsert b None; EvAppend (map item_id b) None]))).
  { unfold deliver.
    rewrite (upsert_with_retry_ok_at sink disk b 3 5 w 0 Hb);
      [|lia|assumption|intros j Hj; lia|lia|now rewrite Nat.add_0_r].
    cbn [failed_attempts app]. do 2 f_equal. lia. }
  rewrite (deliver_step_eq c w b _ _ Hd).
  destruct b as [|x b]; [contradiction|]. reflexivity.
Qed.

(** One delivery the sink refuses with an error that is not retryable. *)
Lemma deliver_step_refused (b : @DeliveryBatch Vector) (c : Z)
    (w : @World Vector) (e : string) :
  b <> [] -> sink (served w) = Some e -> is_retryable e = false ->
  deliver_step sink disk (c, w) b =
  (c, mkWorld (ckpt w) (S (served w)) (trace w ++ [EvUpsert b (Some e)])).
Proof.
  intros Hb Hs He.
  assert (Hd : deliver sink disk b w =
               (Ret 0, mkWorld (ckpt w) (S (served w))
                               (trace w ++ [EvUpsert b (Some e)]))).
  { unfold deliver.
    rewrite (upsert_with_retry_fail_at sink disk b 3 5 w 0 e Hb);
      [|lia|intros j Hj; lia|lia|now rewrite Nat.add_0_r|now left].
    cbn [failed_attempts app]. do 2 f_equal. lia. }
  now rewrite (deliver_step_eq c w b _ _ Hd).
Qed.

Lemma items_from_ids (embs : list Vector) :
  forall done rest : list Row,
    List.length embs = List.length rest ->
    Forall (coercible repr_finite empty_array_truth dtype_of) rest ->
    map item_id
      (items_from repr_finite empty_array_truth dtype_of
         (map (row_key repr_finite) (done ++ rest)) (done ++ rest)
         (List.length done) embs) =
    map (row_key repr_finite) rest.
Proof.
  induction embs as [|v embs IH]; intros done rest Hlen Hok.
  - destruct rest; [reflexivity|discriminate].
  - destruct rest as [|r rest]; [discriminate|].
    cbn [items_from].
    rewrite nth_error_map, nth_error_app2, Nat.sub_diag by lia.
    cbn [nth_error option_map].
    pose proof (Forall_inv Hok) as Hr. unfold coercible in Hr.
    destruct (metadata_payload _ _ _ r) as [payload|]; [|contradiction].
    cbn [map item_id]. f_equal.
    replace (done ++ r :: rest) with ((done ++ [r]) ++ rest)
      by (now rewrite <- app_assoc).
    replace (S (List.length done)) with (List.length (done ++ [r]))
      by (rewrite length_app; cbn; lia).
    apply IH; [cbn in Hlen; lia|exact (Forall_inv_tail Hok)].
Qed.

Lemma future_items_ids (df : list Row) (i : nat) :
  provider_ok provider -> Forall (coercible repr_finite empty_array_truth dtype_of) df ->
  map item_id
      (future_items repr_finite empty_array_truth dtype_of provider df i) =
  match nth_error (all_original_data_batches df) i with
  | Some rows => map (row_key repr_finite) rows
  | None => []
  end.
Proof.
  intros Hp Hok. unfold future_items.
  destruct (nth_error _ i) as [rows|] eqn:Hi; [|reflexivity].
  assert (Hrows : Forall (coercible repr_finite empty_array_truth dtype_of) rows).
  { apply Forall_forall. intros r Hr.
    apply (proj1 (Forall_forall _ _) Hok).
    rewrite <- (chunks_partition df). apply in_concat.
    exists rows. split; [now apply nth_error_In with i|assumption]. }
  unfold embed. destruct rows as [|r rows]; [reflexivity|].
  cbn [map]. destruct (Hp i (row_text r :: map row_text rows)
                          ltac:(discriminate)) as (vs & Hvs & Hlen).
  rewrite Hvs.
  apply (items_from_ids vs [] (r :: rows)); [|assumption].
  rewrite Hlen. cbn. now rewrite length_map.
Qed.

(** When the provider and the coercion play along, the run pushes every row
    of the frame once, whatever the order of completion. *)
Lemma run_items_ids (df : list Row) (order : list nat) :
  provider_ok provider -> Forall (coercible repr_finite empty_array_truth dtype_of) df ->
  Permutation order (seq 0 (List.length (all_original_data_batches df))) ->
  Permutation
    (map item_id
       (run_items repr_finite empty_array_truth dtype_of provider df order))
    (map (row_key repr_finite) df).
Proof.
  intros Hp Hok Hperm. unfold run_items.
  rewrite flat_map_concat_map, concat_map, map_map, <- flat_map_concat_map.
  rewrite (flat_map_ext _ _ (fun i => future_items_ids df i Hp Hok)).
  rewrite (Permutation_flat_map _ Hperm), flat_map_nth_error.
  rewrite flat_map_concat_map, <- concat_map, chunks_partition.
  reflexivity.
Qed.

(** The batches of a run on 250 rows. *)
Lemma batches_of_250 (df : list Row) (order : list nat) :
  List.length df = 250%nat ->
  Permutation order (seq 0 3) ->
  provider_ok provider -> Forall (coercible repr_finite empty_array_truth dtype_of) df ->
  exists b1 b2 b3 : @DeliveryBatch Vector,
    split_batches PINECONE_UPSERT_BATCH_SIZE []
      (run_items repr_finite empty_array_truth dtype_of provider df order)
      = ([b1; b2], b3) /\
    List.length b1 = 100%nat /\ List.length b2 = 100%nat /\
    List.length b3 = 50%nat /\
    Permutation (map item_id b1 ++ map item_id b2 ++ map item_id b3)
                (map (row_key repr_finite) df).
Proof.
  intros Hlen Hperm Hp Hok.
  assert (Hids : Permutation
            (map item_id (run_items repr_finite empty_array_truth dtype_of
                                    provider df order))
            (map (row_key repr_finite) df)).
  { apply run_items_ids; try assumption.
    now rewrite (chunks_of_250 df Hlen). }
  assert (Hn : List.length (run_items repr_finite empty_array_truth dtype_of
                                      provider df order) = 250%nat).
  { rewrite <- (length_map item_id), (Permutation_length Hids), length_map.
    exact Hlen. }
  destruct (split_250 _ Hn) as (b1 & b2 & b3 & Hs & H1 & H2 & H3 & Hcat).
  exists b1, b2, b3. repeat split; try assumption.
  rewrite <- !map_app, Hcat. exact Hids.
Qed.

Lemma last_batch_nonempty {A : Type} (b : list A) :
  b <> [] -> match b with [] => [] | _ => [b] end = [b].
Proof. destruct b; [contradiction|reflexivity]. Qed.

Lemma nonempty_of_length {A : Type} (b : list A) (n : nat) :
  List.length b = S n -> b <> [].
Proof. intros H ->. discriminate. Qed.

(** The run asks the provider about the texts of the chunks and about
    nothing else: a provider that answers those calls alike gives the same
    run. *)
Lemma run_filtered_provider
    (provider' : nat -> list atom -> option (list Vector))
    (df : list Row) (order : list nat) (w0 : @World Vector) :
  (forall i c, nth_error (all_original_data_batches df) i = Some c ->
     provider' i (map row_text c) = provider i (map row_text c)) ->
  run_filtered repr_finite empty_array_truth dtype_of sink disk provider' df
               order w0 =
  run_filtered repr_finite empty_array_truth dtype_of sink disk provider df
               order w0.
Proof.
  intros H. unfold run_filtered. destruct df as [|r0 df']; [reflexivity|].
  f_equal. unfold embedding_phase. generalize (mkRun [] 0 w0) as st.
  induction order as [|i order IH]; intros st; [reflexivity|].
  cbn [fold_left]. rewrite IH. f_equal.
  unfold process_future.
  destruct (nth_error _ i) as [c|] eqn:Hi; [|reflexivity].
  unfold embed. specialize (H i c Hi).
  destruct (map row_text c) as [|t ts]; [reflexivity|]. now rewrite H.
Qed.

(** What three deliveries in a row write. *)
Lemma ids_written (file : string) (a b c : list string) :
  save_processed_ids c (save_processed_ids b (save_processed_ids a file)) =
  (file ++
   String.concat EmptyString
     (map (fun id_val => id_val ++ String PyStr.LF EmptyString)
          (a ++ b ++ c)))%string.
Proof.
  now rewrite <- !save_processed_ids_app, save_processed_ids_text,
    ids_text_concat.
Qed.

(** C8, as the code has it: 250 filtered rows whose values coerce without
    raising, every provider call, every sink call and every operation on
    the checkpoint file succeeding.  The embedding calls are three, on
    chunks of 100, 100 and 50 texts that are the frame cut in order, and the
    run depends on the provider through its answers to these three calls
    only.  The embedding phase upserts two batches of 100, each followed by
    the append of its ids, and leaves 50 items in the buffer; the drain
    upserts them as a third batch and appends their ids.  The sink has
    served three calls.  The file has grown by one line per id of the three
    batches, which are the ids of the 250 rows, so every clean id of the
    frame is read back from it; the run counts 250. *)
Theorem scenario_all_calls_succeed (df : list Row) (order : list nat)
    (w0 : @World Vector) :
  List.length df = 250%nat ->
  Permutation order (seq 0 3) ->
  provider_ok provider ->
  Forall (coercible repr_finite empty_array_truth dtype_of) df ->
  (forall n, sink n = None) ->
  disk_ok disk ->
  let chunks := all_text_batches_to_embed df in
  let pre := embedding_phase repr_finite empty_array_truth dtype_of sink disk
                             provider df order w0 in
  let st := run_filtered repr_finite empty_array_truth dtype_of sink disk
                         provider df order w0 in
  map (@List.length atom) chunks = [100; 100; 50]%nat /\
  List.concat chunks = map row_text df /\
  (forall provider' : nat -> list atom -> option (list Vector),
      (forall i, (i < 3)%nat ->
         provider' i (nth i chunks []) = provider i (nth i chunks [])) ->
      run_filtered repr_finite empty_array_truth dtype_of sink disk provider'
                   df order w0 = st) /\
  exists b1 b2 b3 : @DeliveryBatch Vector,
    List.length b1 = 100%nat /\ List.length b2 = 100%nat /\
    List.length b3 = 50%nat /\
    Permutation (map item_id (b1 ++ b2 ++ b3)) (map (row_key repr_finite) df) /\
    trace (world pre) =
      trace w0 ++ [EvUpsert b1 None; EvAppend (map item_id b1) None;
                   EvUpsert b2 None; EvAppend (map item_id b2) None] /\
    vectors_to_upsert_buffer pre = b3 /\
    trace (world st) =
      trace (world pre) ++ [EvUpsert b3 None; EvAppend (map item_id b3) None] /\
    served (world st) = (served w0 + 3)%nat /\
    ckpt (world st) =
      (ckpt w0 ++
       String.concat EmptyString
         (map (fun id_val => id_val ++ String PyStr.LF EmptyString)
              (map item_id (b1 ++ b2 ++ b3))))%string /\
    (terminated (ckpt w0) ->
     forall r, In r df -> clean_id (row_key repr_finite r) = true ->
               In (row_key repr_finite r)
                  (load_processed_ids (ckpt (world st)))) /\
    processed_count_in_run st = 250%Z /\
    vectors_to_upsert_buffer st = [].
Proof.
  intros Hlen Hperm Hp Hok Hsink Hdisk chunks pre st.
  destruct (batches_of_250 df order Hlen Hperm Hp Hok)
    as (b1 & b2 & b3 & Hs & H1 & H2 & H3 & Hids).
  pose proof (nonempty_of_length b1 _ H1) as N1.
  pose proof (nonempty_of_length b2 _ H2) as N2.
  pose proof (nonempty_of_length b3 _ H3) as N3.
  rewrite <- !map_app in Hids.
  assert (Hpre : pre =
            mkRun b3 (0 + 100 + 100)%Z
              (mkWorld
                 (save_processed_ids (map item_id b2)
                    (save_processed_ids (map item_id b1) (ckpt w0)))
                 (S (S (served w0)))
                 ((trace w0 ++ [EvUpsert b1 None; EvAppend (map item_id b1) None])
                  ++ [EvUpsert b2 None; EvAppend (map item_id b2) None]))).
  { subst pre. rewrite embedding_phase_feed, feed_split. cbv zeta.
    rewrite Hs. cbn [fst snd deliver_batches fold_left].
    rewrite (deliver_step_ok b1 _ _ N1 Hdisk (Hsink _)).
    rewrite (deliver_step_ok b2 _ _ N2 Hdisk (Hsink _)).
    cbn [fst snd ckpt served trace]. now rewrite H1, H2. }
  assert (Hst : st =
            mkRun [] (0 + 100 + 100 + 50)%Z
              (mkWorld
                 (save_processed_ids (map item_id b3)
                    (save_processed_ids (map item_id b2)
                       (save_processed_ids (map item_id b1) (ckpt w0))))
                 (S (S (S (served w0))))
                 (trace (world pre)
                  ++ [EvUpsert b3 None; EvAppend (map item_id b3) None]))).
  { rewrite Hpre. subst st.
    rewrite run_filtered_batches by (intros ->; discriminate).
    cbv zeta. unfold delivery_batches. rewrite Hs.
    rewrite (last_batch_nonempty b3 N3).
    cbn [app deliver_batches fold_left].
    rewrite (deliver_step_ok b1 _ _ N1 Hdisk (Hsink _)).
    rewrite (deliver_step_ok b2 _ _ N2 Hdisk (Hsink _)).
    rewrite (deliver_step_ok b3 _ _ N3 Hdisk (Hsink _)).
    cbn [fst snd ckpt served trace world]. now rewrite H1, H2, H3. }
  assert (Hfile : ckpt (world st) =
            (ckpt w0 ++
             String.concat EmptyString
               (map (fun id_val => id_val ++ String PyStr.LF EmptyString)
                    (map item_id (b1 ++ b2 ++ b3))))%string).
  { rewrite Hst. cbn [world ckpt]. now rewrite ids_written, !map_app. }
  split; [|split; [|split]].
  - subst chunks. unfold all_text_batches_to_embed.
    rewrite (chunks_of_250 df Hlen). cbn [map].
    rewrite !length_map, !length_firstn, !length_skipn, Hlen. reflexivity.
  - subst chunks. unfold all_text_batches_to_embed.
    now rewrite <- concat_map, chunks_partition.
  - intros provider' Hsame. subst st. apply run_filtered_provider.
    intros i c Hi.
    assert (Hi3 : (i < 3)%nat).
    { assert (Hsome : nth_error (all_original_data_batches df) i <> None)
        by (rewrite Hi; discriminate).
      apply nth_error_Some in Hsome.
      rewrite (chunks_of_250 df Hlen) in Hsome. exact Hsome. }
    specialize (Hsame i Hi3). subst chunks.
    unfold all_text_batches_to_embed in Hsame.
    change (@nil atom) with (map row_text []) in Hsame.
    rewrite map_nth, (nth_error_nth _ _ _ Hi) in Hsame. exact Hsame.
  - exists b1, b2, b3.
    split; [assumption|]. split; [assumption|]. split; [assumption|].
    split; [assumption|].
    split; [rewrite Hpre; cbn [world trace]; now rewrite <- app_assoc|].
    split; [now rewrite Hpre|]. split; [now rewrite Hst|].
    split; [rewrite Hst; cbn [world served]; lia|].
    split; [assumption|]. split; [|now rewrite Hst].
    intros Hterm r Hr Hclean. rewrite Hfile, <- ids_text_concat.
    rewrite (load_after_terminated _ _ Hterm). apply in_or_app. right.
    apply load_ids_text; [|assumption].
    apply (Permutation_in _ (Permutation_sym Hids)).
    now apply in_map.
Qed.


(** A batch that is not empty is handed to the sink at least once. *)
Lemma deliver_attempts (b : @DeliveryBatch Vector) (w : @World Vector) :
  b <> [] ->
  exists n w' T,
    deliver sink disk b w = (Ret n, w') /\
    trace w' = trace w ++ T /\
    (forall x, In x (upserts T) -> fst x = b) /\
    exists answer, In (b, answer) (upserts T).
Proof.
  intros Hne.
  destruct (upsert_with_retry_shape sink disk b 3 5 w ltac:(lia))
    as (n & w' & T & Hrun & Ht & _ & Hb & _).
  exists n, w', T. repeat split; try assumption.
  assert (HT : trace (snd (upsert_with_retry sink disk b 3 5 w))
               = trace w ++ T) by now rewrite Hrun.
  pose proof (attempts_after_failures sink disk b 3 5 w 0 T Hne ltac:(lia)
                ltac:(intros j Hj; lia) ltac:(lia) HT) as Hpos.
  destruct (upserts T) as [|[b' answer] l]; [cbn in Hpos; lia|].
  exists answer. left. f_equal.
  exact (Hb (b', answer) (or_introl eq_refl)).
Qed.


(** Every batch of a sequence of deliveries is handed to the sink, whatever
    became of the batches before it. *)
Lemma deliver_batches_attempts (bs : list (@DeliveryBatch Vector)) :
  Forall (fun b => b <> []) bs ->
  forall (c : Z) (w : @World Vector),
  exists T,
    trace (snd (deliver_batches sink disk bs (c, w))) = trace w ++ T /\
    forall b, In b bs -> exists answer, In (b, answer) (upserts T).
Proof.
  induction 1 as [|b bs Hne _ IH]; intros c w.
  - exists []. cbn. rewrite app_nil_r. split; [reflexivity|intros b []].
  - cbn [deliver_batches fold_left].
    destruct (deliver_attempts b w Hne) as (n & w' & T1 & Hd & Ht & _ & a & Ha).
    rewrite (deliver_step_eq c w b n w' Hd).
    destruct (IH (if (0 <? n)%Z then (c + n)%Z else c) w') as (T2 & Ht2 & Hb2).
    exists (T1 ++ T2). unfold deliver_batches in Ht2.
    rewrite Ht2, Ht, <- app_assoc. split; [reflexivity|].
    intros b' [<-|Hb'].
    + exists a. rewrite upserts_app. apply in_or_app. now left.
    + destruct (Hb2 b' Hb') as (a' & Ha'). exists a'.
      rewrite upserts_app. apply in_or_app. now right.
Qed.

Lemma delivery_batches_nonempty (items : @DeliveryBatch Vector) :
  Forall (fun b => b <> []) (delivery_batches items).
Proof.
  unfold delivery_batches.
  destruct (split_batches_spec PINECONE_UPSERT_BATCH_SIZE items
              ltac:(unfold PINECONE_UPSERT_BATCH_SIZE; lia) []
              ltac:(unfold PINECONE_UPSERT_BATCH_SIZE; cbn; lia))
    as (_ & Hf & _).
  destruct (split_batches PINECONE_UPSERT_BATCH_SIZE [] items) as [bs rest].
  cbn [fst] in Hf. apply Forall_app. split.
  - apply Forall_forall. intros b Hb.
    pose proof (proj1 (Forall_forall _ _) Hf b Hb) as Hl. cbn beta in Hl.
    intros ->. discriminate.
  - destruct rest; [constructor|]. constructor; [discriminate|constructor].
Qed.

(** C5: an error that is not retryable ends the call at the attempt where it
    occurs: after [k] retryable failures and their sleeps the refused upsert
    is the last event of the call, nothing is appended, the file is untouched
    and the call returns 0.  The run goes on: with 250 rows and a first sink
    call refused for good, the two other batches are still upserted and,
    when no operation on the checkpoint file raises, their 150 ids appended.
    In every run, whatever the sink and the file system answer, each batch
    of the run is handed to the sink. *)
Theorem non_retryable_abandons_batch_only :
  (forall (b : @DeliveryBatch Vector) (max_retries initial_delay : Z)
          (w : @World Vector) (k : nat) (e : string),
      b <> [] -> (0 <= initial_delay)%Z ->
      (forall j, (j < k)%nat ->
         exists e', sink (served w + j) = Some e' /\ is_retryable e' = true) ->
      (Z.of_nat k < max_retries)%Z ->
      sink (served w + k) = Some e ->
      is_retryable e = false ->
      upsert_with_retry sink disk b max_retries initial_delay w =
      (Ret 0,
       mkWorld (ckpt w) (served w + k + 1)
               (trace w ++ failed_attempts sink b (served w) initial_delay 0 k
                       ++ [EvUpsert b (Some e)]))) /\
  (forall (df : list Row) (order : list nat) (w0 : @World Vector) (e : string),
      List.length df = 250%nat ->
      Permutation order (seq 0 3) ->
      provider_ok provider ->
      Forall (coercible repr_finite empty_array_truth dtype_of) df ->
      disk_ok disk ->
      sink (served w0) = Some e -> is_retryable e = false ->
      (forall n, (served w0 < n)%nat -> sink n = None) ->
      let st := run_filtered repr_finite empty_array_truth dtype_of sink disk
                             provider df order w0 in
      exists T,
        trace (world st) = trace w0 ++ T /\
        map (fun x => (List.length (fst x), snd x)) (upserts T) =
          [(100, Some e); (100, None); (50, None)]%nat /\
        sleeps T = [] /\
        List.length (appended T) = 150%nat /\
        ckpt (world st) = save_processed_ids (appended T) (ckpt w0) /\
        ckpt (world st) =
          (ckpt w0 ++
           String.concat EmptyString
             (map (fun id_val => id_val ++ String PyStr.LF EmptyString)
                  (appended T)))%string /\
        processed_count_in_run st = 150%Z) /\
  (forall (df : list Row) (order : list nat) (w0 : @World Vector),
      df <> [] ->
      let st := run_filtered repr_finite empty_array_truth dtype_of sink disk
                             provider df order w0 in
      exists T,
        trace (world st) = trace w0 ++ T /\
        forall b,
          In b (delivery_batches
                  (run_items repr_finite empty_array_truth dtype_of provider
                             df order)) ->
          exists answer, In (b, answer) (upserts T)).
Proof.
  split; [|split].
  - intros b max d w k e Hb Hd Hfail Hk Hs He.
    apply upsert_with_retry_fail_at; try assumption. now left.
  - intros df order w0 e Hlen Hperm Hp Hok Hdisk Hs He Hrest st.
    destruct (batches_of_250 df order Hlen Hperm Hp Hok)
      as (b1 & b2 & b3 & Hsp & H1 & H2 & H3 & Hids).
    pose proof (nonempty_of_length b1 _ H1) as N1.
    pose proof (nonempty_of_length b2 _ H2) as N2.
    pose proof (nonempty_of_length b3 _ H3) as N3.
    subst st. rewrite run_filtered_batches by (intros ->; discriminate).
    cbv zeta. unfold delivery_batches. rewrite Hsp.
    rewrite (last_batch_nonempty b3 N3).
    cbn [app deliver_batches fold_left].
    rewrite (deliver_step_refused b1 _ _ e N1 Hs He).
    rewrite (deliver_step_ok b2 _ _ N2 Hdisk)
      by (cbn [served]; apply Hrest; lia).
    rewrite (deliver_step_ok b3 _ _ N3 Hdisk)
      by (cbn [served]; apply Hrest; lia).
    cbn [fst snd world trace ckpt processed_count_in_run].
    eexists. split; [rewrite <- !app_assoc; reflexivity|].
    cbn [app upserts sleeps appended map fst snd].
    rewrite H1, H2, H3, app_nil_r, length_app, !length_map, H2, H3.
    repeat split.
    + now rewrite save_processed_ids_app.
    + now rewrite <- save_processed_ids_app, save_processed_ids_text,
        ids_text_concat.
  - intros df order w0 Hdf st. subst st.
    rewrite run_filtered_batches by assumption. cbv zeta. cbn [world].
    apply deliver_batches_attempts, delivery_batches_nonempty.
Qed.


End PipelineFacts.

Lemma sample_frame_coercible (n : nat) :
  Forall (coercible (fun _ => "0.5") (Some false) (fun _ => DOther))
         (sample_frame n).
Proof.
  apply Forall_forall. intros r Hr. apply in_map_iff in Hr.
  destruct Hr as (k & <- & _). discriminate.
Qed.

Lemma sample_provider_ok : provider_ok sample_provider.
Proof.
  intros i texts _. eexists. split; [reflexivity|apply length_map].
Qed.

Lemma sample_disk_ok : disk_ok sample_disk.
Proof. intros n j. reflexivity. Qed.

Lemma scenario_all_calls_succeed_witness :
  let repr := fun _ : spec_float => "0.5" in
  let df := sample_frame 250 in
  let order := [2; 0; 1]%nat in
  let pre := embedding_phase repr (Some false) (fun _ => DOther)
                             (fun _ => None) sample_disk sample_provider
                             df order sample_world in
  let st := run_filtered repr (Some false) (fun _ => DOther) (fun _ => None)
                         sample_disk sample_provider df order sample_world in
  map (@List.length atom) (all_text_batches_to_embed df)
    = [100; 100; 50]%nat /\
  exists b1 b2 b3 : @DeliveryBatch unit,
    List.length b1 = 100%nat /\ List.length b2 = 100%nat /\
    List.length b3 = 50%nat /\
    Permutation (map item_id (b1 ++ b2 ++ b3)) (map (row_key repr) df) /\
    trace (world pre) =
      trace sample_world
      ++ [EvUpsert b1 None; EvAppend (map item_id b1) None;
          EvUpsert b2 None; EvAppend (map item_id b2) None] /\
    vectors_to_upsert_buffer pre = b3 /\
    trace (world st) =
      trace (world pre) ++ [EvUpsert b3 None; EvAppend (map item_id b3) None] /\
    served (world st) = (served sample_world + 3)%nat /\
    ckpt (world st) =
      (ckpt sample_world ++
       String.concat EmptyString
         (map (fun id_val => id_val ++ String PyStr.LF EmptyString)
              (map item_id (b1 ++ b2 ++ b3))))%string /\
    (terminated (ckpt sample_world) ->
     forall r, In r df -> clean_id (row_key repr r) = true ->
               In (row_key repr r) (load_processed_ids (ckpt (world st)))) /\
    processed_count_in_run st = 250%Z /\
    vectors_to_upsert_buffer st = [].
Proof.
  destruct (scenario_all_calls_succeed (fun _ => "0.5") (Some false)
              (fun _ => DOther) (fun _ => None) sample_disk sample_provider
              (sample_frame 250) [2; 0; 1]%nat sample_world)
    as (H1 & _ & _ & H4).
  - unfold sample_frame. now rewrite length_map, length_seq.
  - exact (Permutation_cons_append [0; 1]%nat 2%nat).
  - exact sample_provider_ok.
  - exact (sample_frame_coercible 250).
  - reflexivity.
  - exact sample_disk_ok.
  - split; [exact H1|exact H4].
Defined.

(** Every provider call and every sink call succeeds, and opening the
    checkpoint file for appending raises, as it does when the file is
    read-only: the three batches are upserted, the run counts 0, and no id
    of the 250 rows is in the file. *)
Lemma write_error_loses_a_batch :
  let repr := fun _ : spec_float => "0.5" in
  let denied := "[Errno 13] Permission denied: 'processed_post_ids.txt'" in
  let sink := fun _ : nat => @None string in
  let disk := fun _ j : nat => if (j =? 0)%nat then Some denied else None in
  let run := run_filtered repr (Some false) (fun _ => DOther) sink disk
                          sample_provider (sample_frame 250) [0; 1; 2]%nat
                          sample_world in
  (forall n, sink n = None) /\
  provider_ok sample_provider /\
  map (fun x => (List.length (fst x), snd x)) (upserts (trace (world run))) =
    [(100, None); (100, None); (50, None)]%nat /\
  appended (trace (world run)) = [] /\
  ckpt (world run) = ckpt sample_world /\
  load_processed_ids (ckpt (world run)) = [] /\
  processed_count_in_run run = 0%Z.
Proof.
  cbv zeta. split; [reflexivity|]. split; [exact sample_provider_ok|].
  repeat split; vm_compute; reflexivity.
Qed.

Lemma non_retryable_abandons_batch_only_witness :
  (let sink := fun _ : nat => Some sample_refusal in
   upsert_with_retry sink sample_disk (sample_buffer 2) 3 5 sample_world =
   (Ret 0,
    mkWorld "" 1 [EvUpsert (sample_buffer 2) (Some sample_refusal)])) /\
  (let sink := fun n : nat =>
       if (n =? 0)%nat then Some sample_refusal else None in
   let run := run_filtered (fun _ => "0.5") (Some false) (fun _ => DOther)
                           sink sample_disk sample_provider (sample_frame 250)
                           [2; 0; 1]%nat sample_world in
   exists T,
     trace (world run) = trace sample_world ++ T /\
     map (fun x => (List.length (fst x), snd x)) (upserts T) =
       [(100, Some sample_refusal); (100, None); (50, None)]%nat /\
     sleeps T = [] /\
     List.length (appended T) = 150%nat /\
     ckpt (world run) = save_processed_ids (appended T) (ckpt sample_world) /\
     ckpt (world run) =
       (ckpt sample_world ++
        String.concat EmptyString
          (map (fun id_val => id_val ++ String PyStr.LF EmptyString)
               (appended T)))%string /\
     processed_count_in_run run = 150%Z) /\
  (let sink := fun _ : nat => Some sample_refusal in
   let run := run_filtered (fun _ => "0.5") (Some false) (fun _ => DOther)
                           sink sample_disk sample_provider (sample_frame 1)
                           [0]%nat sample_world in
   exists T,
     trace (world run) = trace sample_world ++ T /\
     forall b,
       In b (delivery_batches
               (run_items (fun _ => "0.5") (Some false) (fun _ => DOther)
                          sample_provider (sample_frame 1) [0]%nat)) ->
       exists answer, In (b, answer) (upserts T)).
Proof.
  split; [|split].
  - apply (proj1 (non_retryable_abandons_batch_only (fun _ => "0.5")
                    (Some false) (fun _ => DOther)
                    (fun _ : nat => Some sample_refusal) sample_disk
                    sample_provider)
             (sample_buffer 2) 3%Z 5%Z sample_world 0%nat sample_refusal);
      [discriminate|lia|intros j Hj; lia|lia|reflexivity|reflexivity].
  - apply (proj1 (proj2 (non_retryable_abandons_batch_only (fun _ => "0.5")
                    (Some false) (fun _ => DOther)
                    (fun n : nat =>
                       if (n =? 0)%nat then Some sample_refusal else None)
                    sample_disk sample_provider))
             (sample_frame 250) [2; 0; 1]%nat sample_world sample_refusal).
    + unfold sample_frame. now rewrite length_map, length_seq.
    + exact (Permutation_cons_append [0; 1]%nat 2%nat).
    + exact sample_provider_ok.
    + exact (sample_frame_coercible 250).
    + exact sample_disk_ok.
    + reflexivity.
    + reflexivity.
    + intros [|n] Hn; [cbn in Hn; lia|reflexivity].
  - apply (proj2 (proj2 (non_retryable_abandons_batch_only (fun _ => "0.5")
                    (Some false) (fun _ => DOther)
                    (fun _ : nat => Some sample_refusal)
                    sample_disk sample_provider))
             (sample_frame 1) [0]%nat sample_world).
    discriminate.
Defined.



(** * Further properties of the code *)

(** ** The checkpoint file, written and read back *)

Lemma load_ids_text_clean (ids : list string) :
  Forall (fun id_val => clean_id id_val = true) ids ->
  load_processed_ids (ids_text ids) = ids.
Proof.
  induction 1 as [|x ids Hx _ IH]; [reflexivity|].
  unfold clean_id in Hx.
  apply andb_prop in Hx. destruct Hx as [Hx Hnb].
  apply andb_prop in Hx. destruct Hx as [Hstrip Hne].
  apply String.eqb_eq in Hstrip.
  cbn [ids_text]. unfold load_processed_ids in *.
  rewrite lines_after_break, map_app, filter_app, IH, (lines_one x Hnb).
  cbn [map filter]. now rewrite Hstrip, Hne.
Qed.

(** X1: Round trip of [save_processed_ids] and [load_processed_ids]: clean ids
    appended to a file that is empty or ends with a line feed are read back
    as they were written, in order, after the ids the file already held. *)
Theorem checkpoint_round_trip (file : string) (ids : list string) :
  terminated file ->
  Forall (fun id_val => clean_id id_val = true) ids ->
  load_processed_ids (save_processed_ids ids file) =
  load_processed_ids file ++ ids.
Proof.
  intros Hterm Hclean.
  rewrite save_processed_ids_text, (load_after_terminated _ _ Hterm).
  now rewrite load_ids_text_clean.
Qed.

Lemma checkpoint_round_trip_witness :
  load_processed_ids
    (save_processed_ids ["p3"; "p4"] (save_processed_ids ["p1"; "p2"] ""))
  = load_processed_ids (save_processed_ids ["p1"; "p2"] "") ++ ["p3"; "p4"].
Proof.
  apply (checkpoint_round_trip (save_processed_ids ["p1"; "p2"] "")
           ["p3"; "p4"]).
  - right. exists ("p1" ++ String PyStr.LF "p2")%string. reflexivity.
  - repeat constructor.
Defined.

Lemma save_keeps_terminated (ids : list string) :
  forall file, terminated file -> terminated (save_processed_ids ids file).
Proof.
  induction ids as [|x ids IH]; intros file Hterm; [assumption|].
  cbn [save_processed_ids]. apply IH. right. exists (file ++ x)%string.
  now rewrite string_app_assoc.
Qed.

(** X2: [save_processed_ids] only appends: the old content is a prefix of the
    new one, a file that ended with a line feed still does, and every id
    that was read from the old file is read from the new one. *)
Theorem save_only_appends (file : string) (ids : list string) :
  terminated file ->
  (exists added, save_processed_ids ids file = (file ++ added)%string) /\
  terminated (save_processed_ids ids file) /\
  (forall id_val, In id_val (load_processed_ids file) ->
                  In id_val (load_processed_ids (save_processed_ids ids file))).
Proof.
  intros Hterm. split; [|split].
  - exists (ids_text ids). apply save_processed_ids_text.
  - now apply save_keeps_terminated.
  - intros id_val Hin.
    rewrite save_processed_ids_text, (load_after_terminated _ _ Hterm).
    apply in_or_app. now left.
Qed.

Lemma save_only_appends_witness :
  (exists added, save_processed_ids [" 17"; "p2"] "" = ("" ++ added)%string) /\
  terminated (save_processed_ids [" 17"; "p2"] "") /\
  (forall id_val, In id_val (load_processed_ids "") ->
                  In id_val (load_processed_ids
                               (save_processed_ids [" 17"; "p2"] ""))).
Proof.
  apply (save_only_appends "" [" 17"; "p2"]). now left.
Defined.

Lemma lines_no_break (s : string) :
  Forall (fun l => no_break l = true) (PyStr.lines s).
Proof.
  induction s as [|c s IH]; [constructor|].
  cbn [PyStr.lines]. destruct (PyStr.is_break c) eqn:Hc.
  - constructor; [reflexivity|assumption].
  - destruct (PyStr.lines s) as [|l ls].
    + repeat constructor. cbn. now rewrite Hc.
    + constructor; [|exact (Forall_inv_tail IH)].
      cbn. rewrite Hc. exact (Forall_inv IH).
Qed.

Lemma no_break_lstrip (s : string) :
  no_break s = true -> no_break (PyStr.lstrip s) = true.
Proof.
  induction s as [|c s IH]; intros H; [reflexivity|].
  cbn [PyStr.lstrip]. destruct (PyStr.is_space c); [|assumption].
  apply IH. cbn in H. now apply andb_prop in H.
Qed.

Lemma no_break_rstrip (s : string) :
  no_break s = true -> no_break (PyStr.rstrip s) = true.
Proof.
  induction s as [|c s IH]; intros H; [reflexivity|].
  cbn [no_break] in H. apply andb_prop in H. destruct H as [Hc Hs].
  cbn [PyStr.rstrip]. specialize (IH Hs).
  destruct (PyStr.rstrip s) as [|c' r].
  - destruct (PyStr.is_space c); [reflexivity|]. cbn. now rewrite Hc.
  - cbn [no_break] in *. now rewrite Hc.
Qed.

Lemma rstrip_cons (c : ascii) (s : string) :
  PyStr.rstrip (String c s) =
  match PyStr.rstrip s with
  | EmptyString =>
      if PyStr.is_space c then EmptyString else String c EmptyString
  | r => String c r
  end.
Proof. reflexivity. Qed.

Lemma rstrip_idempotent (s : string) :
  PyStr.rstrip (PyStr.rstrip s) = PyStr.rstrip s.
Proof.
  induction s as [|c s IH]; [reflexivity|].
  rewrite rstrip_cons. destruct (PyStr.rstrip s) as [|c' r] eqn:Hr.
  - destruct (PyStr.is_space c) eqn:Hc; [reflexivity|].
    rewrite rstrip_cons. cbn [PyStr.rstrip]. now rewrite Hc.
  - rewrite rstrip_cons, IH. reflexivity.
Qed.

Lemma lstrip_head (s : string) (c : ascii) (t : string) :
  PyStr.lstrip s = String c t -> PyStr.is_space c = false.
Proof.
  induction s as [|c0 s IH]; [discriminate|].
  cbn [PyStr.lstrip]. destruct (PyStr.is_space c0) eqn:Hc; [exact IH|].
  intros H. inversion H; subst. exact Hc.
Qed.

Lemma rstrip_head (c : ascii) (t : string) :
  PyStr.is_space c = false ->
  exists r, PyStr.rstrip (String c t) = String c r.
Proof.
  intros Hc. cbn [PyStr.rstrip]. destruct (PyStr.rstrip t) as [|c' r].
  - rewrite Hc. now exists EmptyString.
  - now exists (String c' r).
Qed.

Lemma strip_idempotent (s : string) :
  PyStr.strip (PyStr.strip s) = PyStr.strip s.
Proof.
  unfold PyStr.strip. destruct (PyStr.lstrip s) as [|c t] eqn:Hl;
    [reflexivity|].
  pose proof (lstrip_head s c t Hl) as Hc.
  destruct (rstrip_head c t Hc) as (r & Hr).
  rewrite Hr. cbn [PyStr.lstrip]. rewrite Hc, <- Hr.
  apply rstrip_idempotent.
Qed.

(** X3: Whatever the file holds, the ids [load_processed_ids] returns are clean:
    none is empty, none has a blank at either end, none holds a line break.
    So the set read from any file is read again unchanged after being
    written to a new file. *)
Theorem loaded_ids_are_clean (file : string) :
  Forall (fun id_val => clean_id id_val = true) (load_processed_ids file) /\
  load_processed_ids (save_processed_ids (load_processed_ids file) "")
    = load_processed_ids file.
Proof.
  assert (H : Forall (fun id_val => clean_id id_val = true)
                     (load_processed_ids file)).
  { apply Forall_forall. intros x Hx. unfold load_processed_ids in Hx.
    apply filter_In in Hx. destruct Hx as [Hx Hne].
    apply in_map_iff in Hx. destruct Hx as (l & <- & Hl).
    unfold clean_id. rewrite strip_idempotent, String.eqb_refl, Hne.
    cbn [andb]. unfold PyStr.strip.
    apply no_break_rstrip, no_break_lstrip.
    exact (proj1 (Forall_forall _ _) (lines_no_break file) l Hl). }
  split; [exact H|].
  rewrite save_processed_ids_text. cbn [String.append].
  now apply load_ids_text_clean.
Qed.

(** ** Classification of errors *)

Lemma lower_app (a b : string) :
  PyStr.lower (a ++ b) = (PyStr.lower a ++ PyStr.lower b)%string.
Proof. induction a as [|c a IH]; cbn; [reflexivity|now rewrite IH]. Qed.

Lemma lower_ascii_idempotent (c : ascii) :
  PyStr.lower_ascii (PyStr.lower_ascii c) = PyStr.lower_ascii c.
Proof. destruct c as [[] [] [] [] [] [] [] []]; reflexivity. Qed.

Lemma lower_idempotent (s : string) :
  PyStr.lower (PyStr.lower s) = PyStr.lower s.
Proof.
  induction s as [|c s IH]; cbn; [reflexivity|].
  now rewrite lower_ascii_idempotent, IH.
Qed.

Lemma prefix_app_r (sub : string) :
  forall s b, String.prefix sub s = true ->
              String.prefix sub (s ++ b) = true.
Proof.
  induction sub as [|x sub IH]; intros s b H;
    [now destruct (s ++ b)%string|].
  destruct s as [|y s]; [discriminate|]. cbn in *.
  destruct (ascii_dec x y); [now apply IH|discriminate].
Qed.

Lemma contains_app_r (sub s b : string) :
  PyStr.contains sub s = true -> PyStr.contains sub (s ++ b) = true.
Proof.
  induction s as [|c s IH]; intros H.
  - cbn [PyStr.contains] in H. rewrite orb_false_r in H.
    destruct sub; [now destruct b|discriminate].
  - cbn [PyStr.contains String.append] in *.
    apply orb_prop in H. apply orb_true_iff. destruct H as [H|H].
    + left. exact (prefix_app_r sub (String c s) b H).
    + right. now apply IH.
Qed.

Lemma contains_app_l (sub a s : string) :
  PyStr.contains sub s = true -> PyStr.contains sub (a ++ s) = true.
Proof.
  intros H. induction a as [|c a IH]; [assumption|].
  cbn [PyStr.contains String.append]. rewrite IH. apply orb_true_r.
Qed.

(** X4: The classification reads the message without regard to letter case and
    looks for the marker anywhere in it: a retryable message stays retryable
    whatever text is put before and after it, and the empty message is not
    retryable. *)
Theorem is_retryable_anywhere_any_case (msg before after : string) :
  is_retryable (PyStr.lower msg) = is_retryable msg /\
  (is_retryable msg = true ->
   is_retryable (before ++ msg ++ after) = true) /\
  is_retryable "" = false.
Proof.
  split; [|split; [|reflexivity]].
  - unfold is_retryable. now rewrite lower_idempotent.
  - unfold is_retryable. cbv zeta. rewrite !lower_app.
    intros H. apply existsb_exists in H. destruct H as (sub & Hin & Hsub).
    apply existsb_exists. exists sub. split; [assumption|].
    now apply contains_app_l, contains_app_r.
Qed.

Lemma is_retryable_anywhere_any_case_witness :
  is_retryable (PyStr.lower "Read TIMEOUT") = is_retryable "Read TIMEOUT" /\
  is_retryable ("(503) " ++ "Read TIMEOUT" ++ " after 30s") = true.
Proof.
  destruct (is_retryable_anywhere_any_case "Read TIMEOUT" "(503) "
              " after 30s") as (H1 & H2 & _).
  split; [exact H1|]. apply H2. reflexivity.
Defined.


(** The no-break space U+00A0 and the next-line control U+0085 are
    whitespace for [str.strip]. *)
Lemma strip_removes_latin1_spaces :
  let nbsp := ascii_of_nat 160 in
  let nel := ascii_of_nat 133 in
  PyStr.strip (String nbsp ("17" ++ String nel EmptyString)) = "17" /\
  clean_id (String nbsp "17") = false /\
  load_processed_ids (save_processed_ids [String nbsp "17"] "") = ["17"].
Proof. repeat split. Qed.

(** ** Edges of the retry loop *)

Section RetryEdges.

Context {Vector : Type}.
Variable sink : nat -> option string.
Variable disk : nat -> nat -> option string.

(** X5: With [max_retries] at 0 or below the loop body never runs: the sink is
    not called, nothing is slept or appended, and the batch is given up with
    0 returned, whatever it holds. *)
Theorem no_attempt_without_retries (b : @DeliveryBatch Vector)
    (max_retries initial_delay : Z) (w : @World Vector) :
  (max_retries <= 0)%Z ->
  upsert_with_retry sink disk b max_retries initial_delay w = (Ret 0, w).
Proof.
  intros Hmax. destruct b as [|x b]; [reflexivity|].
  unfold upsert_with_retry.
  replace (Z.to_nat max_retries) with 0%nat by lia. reflexivity.
Qed.

(** X6: A negative [initial_delay] makes the first backoff sleep raise: after a
    retryable failure with a retry to spare the call does not return, and
    the one upsert is all that happened. *)
Theorem negative_delay_raises (b : @DeliveryBatch Vector)
    (max_retries initial_delay : Z) (w : @World Vector) (e : string) :
  b <> [] -> (initial_delay < 0)%Z -> (2 <= max_retries)%Z ->
  sink (served w) = Some e -> is_retryable e = true ->
  upsert_with_retry sink disk b max_retries initial_delay w =
  (Raised,
   mkWorld (ckpt w) (S (served w)) (trace w ++ [EvUpsert b (Some e)])).
Proof.
  intros Hb Hd Hmax Hs He.
  rewrite (upsert_with_retry_loop sink disk b max_retries initial_delay w Hb).
  destruct (Z.to_nat max_retries) as [|fuel] eqn:Hf; [lia|].
  rewrite retry_loop_S. cbv zeta.
  rewrite (try_batch_refused sink disk b w e Hs). cbn [fst snd].
  rewrite He. cbn [andb].
  assert (H1 : (0 <? max_retries)%Z = true) by (apply Z.ltb_lt; lia).
  assert (H2 : (0 <? max_retries - 1)%Z = true) by (apply Z.ltb_lt; lia).
  assert (H3 : (actual_delay initial_delay (0 + 1) <? 0)%Z = true).
  { apply Z.ltb_lt. unfold actual_delay. cbn. lia. }
  now rewrite H1, H2, H3.
Qed.

(** X7: One call makes at most [max_retries] upserts and sleeps before each but
    the first of them; no sleep is negative or longer than 60 seconds; the
    call returns, and it returns 0 or the batch size. *)
Theorem call_is_bounded (b : @DeliveryBatch Vector)
    (max_retries initial_delay : Z) (w : @World Vector) :
  (0 <= initial_delay)%Z ->
  let r := upsert_with_retry sink disk b max_retries initial_delay w in
  exists n T,
    fst r = Ret n /\
    (n = 0%Z \/ n = Z.of_nat (List.length b)) /\
    trace (snd r) = trace w ++ T /\
    served (snd r) = (served w + List.length (upserts T))%nat /\
    (List.length (upserts T) <= Z.to_nat max_retries)%nat /\
    (List.length (sleeps T) <= List.length (upserts T) - 1)%nat /\
    Forall (fun s => (0 <= s <= 60)%Z) (sleeps T).
Proof.
  intros Hd r. subst r.
  destruct (upsert_with_retry_shape sink disk b max_retries initial_delay w Hd)
    as (n & w' & T & Hrun & Ht & Hn & _ & _ & _ & Hsv & Hlen & Hpat & _).
  exists n, T. rewrite Hrun. cbn [fst snd].
  assert (Hsl : sleeps T =
                map (fun j => actual_delay initial_delay (0 + Z.of_nat j))
                    (seq 1 (List.length (upserts T) - 1))).
  { destruct Hpat as [->|(Hpat & _)]; [reflexivity|].
    now rewrite sleeps_pattern, Hpat, lengths_backoff_pattern. }
  repeat split; try assumption.
  - rewrite Hsl, length_map, length_seq. lia.
  - rewrite Hsl. apply Forall_forall. intros s Hs.
    apply in_map_iff in Hs. destruct Hs as (j & <- & _).
    split; [now apply actual_delay_nonneg|]. unfold actual_delay. lia.
Qed.

End RetryEdges.

Lemma no_attempt_without_retries_witness :
  upsert_with_retry (fun _ => None) sample_disk (sample_buffer 3) 0 5
                    sample_world
  = (Ret 0, sample_world).
Proof.
  apply (no_attempt_without_retries (fun _ => None) sample_disk
           (sample_buffer 3) 0 5 sample_world). lia.
Defined.

Lemma negative_delay_raises_witness :
  upsert_with_retry (fun _ => Some "Read timeout") sample_disk
                    (sample_buffer 3) 3 (-1) sample_world
  = (Raised,
     mkWorld "" 1 [EvUpsert (sample_buffer 3) (Some "Read timeout")]).
Proof.
  apply (negative_delay_raises (fun _ => Some "Read timeout") sample_disk
           (sample_buffer 3) 3 (-1) sample_world "Read timeout");
    [discriminate|lia|lia|reflexivity|reflexivity].
Defined.

Lemma call_is_bounded_witness :
  let r := upsert_with_retry (fun _ => Some "Read timeout") sample_disk
                             (sample_buffer 3) 3 5 sample_world in
  exists n T,
    fst r = Ret n /\
    (n = 0%Z \/ n = Z.of_nat (List.length (sample_buffer 3))) /\
    trace (snd r) = trace sample_world ++ T /\
    served (snd r) = (served sample_world + List.length (upserts T))%nat /\
    (List.length (upserts T) <= Z.to_nat 3)%nat /\
    (List.length (sleeps T) <= List.length (upserts T) - 1)%nat /\
    Forall (fun s => (0 <= s <= 60)%Z) (sleeps T).
Proof.
  apply (call_is_bounded (fun _ => Some "Read timeout") sample_disk
           (sample_buffer 3) 3 5 sample_world). lia.
Defined.

(** ** Accounting of a run *)

Section RunAccounting.

Context {Vector : Type}.

Variable repr_finite : spec_float -> string.
Variable empty_array_truth : option bool.
Variable dtype_of : string -> dtype.
Variable sink : nat -> option string.
Variable disk : nat -> nat -> option string.
Variable provider : nat -> list atom -> option (list Vector).

Lemma completed_app (t1 t2 : list (@event Vector)) :
  completed (t1 ++ t2) = completed t1 ++ completed t2.
Proof.
  induction t1 as [|[b r|d|ids [e|]] t1 IH]; simpl;
    [reflexivity|assumption..|].
  now rewrite IH, app_assoc.
Qed.

(** The appends that ran to their end wrote no more than all the appends. *)
Lemma completed_le_appended (t : list (@event Vector)) :
  (List.length (completed t) <= List.length (appended t))%nat.
Proof.
  induction t as [|[b r|d|ids [e|]] t IH]; simpl; try assumption; try lia;
    rewrite ?length_app; lia.
Qed.

Lemma failed_attempts_completed (b : @DeliveryBatch Vector) (n : nat)
    (d r : Z) (k : nat) :
  completed (failed_attempts sink b n d r k) = [].
Proof.
  revert n r. induction k as [|k IH]; intros n r; simpl; [reflexivity|apply IH].
Qed.

(** What one [deliver] call returns, appends and upserts. *)
Lemma deliver_account (b : @DeliveryBatch Vector) (w : @World Vector) :
  exists n w' T,
    deliver sink disk b w = (Ret n, w') /\
    trace w' = trace w ++ T /\
    n = Z.of_nat (List.length (completed T)) /\
    ckpt w' = (ckpt w ++ ids_text (appended T))%string /\
    (forall id_val, In id_val (appended T) -> In id_val (map item_id b)) /\
    (forall x, In x (upserts T) -> fst x = b) /\
    (disk_ok disk -> completed T = appended T).
Proof.
  unfold deliver.
  destruct (upsert_with_retry_shape sink disk b 3 5 w ltac:(lia))
    as (n & w' & T & Hrun & Ht & _ & Hb & Hids & Hck & _ & _ & _ & _ & Hn).
  exists n, w', T. repeat split; try assumption.
  intros Hok. destruct b as [|y b].
  { cbn in Hrun. injection Hrun as <- <-.
    rewrite <- (app_nil_r (trace w)) in Ht at 1.
    apply app_inv_head in Ht. now subst T. }
  destruct (upsert_with_retry_spec sink disk (y :: b) 3 5 w
              ltac:(discriminate) ltac:(lia) Hok) as (k & _ & Hend).
  destruct Hend as [(_ & _ & H)|[(_ & H)|(_ & e & H)]];
    rewrite H in Hrun; injection Hrun as <- <-; cbn [trace] in Ht.
  - rewrite <- (app_nil_r (trace w)) in Ht at 1.
    apply app_inv_head in Ht. now subst T.
  - apply app_inv_head in Ht. subst T.
    now rewrite completed_app, appended_app, failed_attempts_completed,
      failed_attempts_appended.
  - apply app_inv_head in Ht. subst T.
    now rewrite completed_app, appended_app, failed_attempts_completed,
      failed_attempts_appended.
Qed.

Lemma deliver_batches_account (bs : list (@DeliveryBatch Vector)) :
  forall (c : Z) (w : @World Vector),
  exists T,
    trace (snd (deliver_batches sink disk bs (c, w))) = trace w ++ T /\
    fst (deliver_batches sink disk bs (c, w))
      = (c + Z.of_nat (List.length (completed T)))%Z /\
    ckpt (snd (deliver_batches sink disk bs (c, w)))
      = (ckpt w ++ ids_text (appended T))%string /\
    (forall id_val, In id_val (appended T) ->
       exists b, In b bs /\ In id_val (map item_id b)) /\
    (forall x, In x (upserts T) -> In (fst x) bs) /\
    (disk_ok disk -> completed T = appended T).
Proof.
  induction bs as [|b bs IH]; intros c w.
  - exists []. cbn. rewrite app_nil_r, string_app_nil_r.
    repeat split; [lia|intros ? []|intros ? []].
  - cbn [deliver_batches fold_left].
    destruct (deliver_account b w)
      as (n & w' & T1 & Hd & Ht & Hn & Hc & Ha & Hb & Hk).
    rewrite (deliver_step_eq sink disk c w b n w' Hd).
    destruct (IH (if (0 <? n)%Z then (c + n)%Z else c) w')
      as (T2 & Ht2 & Hn2 & Hc2 & Ha2 & Hb2 & Hk2).
    unfold deliver_batches in *.
    exists (T1 ++ T2). rewrite Ht2, Hn2, Hc2, Ht, Hc, <- app_assoc.
    rewrite appended_app, completed_app, length_app, ids_text_app,
      string_app_assoc.
    repeat split.
    + destruct (0 <? n)%Z eqn:Hpos; [lia|]. apply Z.ltb_ge in Hpos. lia.
    + intros id_val Hin. apply in_app_or in Hin. destruct Hin as [Hin|Hin].
      * exists b. split; [now left|now apply Ha].
      * destruct (Ha2 id_val Hin) as (b' & Hb' & Hid).
        exists b'. split; [now right|assumption].
    + intros x Hx. rewrite upserts_app in Hx. apply in_app_or in Hx.
      destruct Hx as [Hx|Hx];
        [left; symmetry; now apply Hb|right; now apply Hb2].
    + intros Hok. now rewrite (Hk Hok), (Hk2 Hok).
Qed.

(** The batches of a run hold between 1 and 100 items and are the items of
    the run, cut in order. *)
Lemma delivery_batches_spec (items : @DeliveryBatch Vector) :
  List.concat (delivery_batches items) = items /\
  Forall (fun b => (1 <= List.length b <= PINECONE_UPSERT_BATCH_SIZE)%nat)
         (delivery_batches items).
Proof.
  unfold delivery_batches.
  destruct (split_batches_spec PINECONE_UPSERT_BATCH_SIZE items
              ltac:(unfold PINECONE_UPSERT_BATCH_SIZE; lia) []
              ltac:(unfold PINECONE_UPSERT_BATCH_SIZE; cbn; lia))
    as (Hc & Hf & Hr).
  destruct (split_batches PINECONE_UPSERT_BATCH_SIZE [] items) as [bs rest].
  cbn [fst snd app] in *.
  assert (Hf' : Forall
            (fun b => (1 <= List.length b <= PINECONE_UPSERT_BATCH_SIZE)%nat)
            bs).
  { apply Forall_forall. intros b Hb.
    rewrite (proj1 (Forall_forall _ _) Hf b Hb).
    unfold PINECONE_UPSERT_BATCH_SIZE. lia. }
  split.
  - rewrite concat_app, <- Hc. f_equal.
    destruct rest; cbn; [reflexivity|now rewrite app_nil_r].
  - apply Forall_app. split; [assumption|].
    destruct rest as [|x rest]; [constructor|].
    constructor; [|constructor]. cbn [List.length] in *. lia.
Qed.

(** X8: Whatever the provider, the sink and the file system answered, the
    checkpoint file at the end of a run is the file at the start followed by
    one line per id the run appended, in the order of the appends; the count
    the run reports is the number of ids written by the appends that ran to
    their end, which is at most the number of ids appended and is that
    number when no operation on the file raised; and the buffer is empty. *)
Theorem run_accounts_for_appends (df : list Row) (order : list nat)
    (w0 : @World Vector) :
  let st := run_filtered repr_finite empty_array_truth dtype_of sink disk
                         provider df order w0 in
  exists T,
    trace (world st) = trace w0 ++ T /\
    ckpt (world st) =
      (ckpt w0 ++
       String.concat EmptyString
         (map (fun id_val => id_val ++ String PyStr.LF EmptyString)
              (appended T)))%string /\
    processed_count_in_run st = Z.of_nat (List.length (completed T)) /\
    (List.length (completed T) <= List.length (appended T))%nat /\
    (disk_ok disk ->
     processed_count_in_run st = Z.of_nat (List.length (appended T))) /\
    vectors_to_upsert_buffer st = [].
Proof.
  cbv zeta. destruct df as [|r0 df].
  { exists []. cbn. rewrite app_nil_r, string_app_nil_r.
    split; [reflexivity|]. split; [reflexivity|]. split; [reflexivity|].
    split; [lia|]. split; reflexivity. }
  rewrite run_filtered_batches by discriminate. cbv zeta.
  destruct (deliver_batches_account
              (delivery_batches
                 (run_items repr_finite empty_array_truth dtype_of provider
                            (r0 :: df) order)) 0%Z w0)
    as (T & Ht & Hn & Hc & _ & _ & Hk).
  exists T. cbn [world processed_count_in_run vectors_to_upsert_buffer].
  rewrite Ht, Hn, Hc, ids_text_concat.
  repeat split; [apply completed_le_appended|].
  intros Hok. now rewrite (Hk Hok).
Qed.

(** X9: Every batch a run hands to the sink holds at least one item and at most
    100, whatever the provider and the sink answered. *)
Theorem run_upserts_bounded_batches (df : list Row) (order : list nat)
    (w0 : @World Vector) :
  let st := run_filtered repr_finite empty_array_truth dtype_of sink disk
                         provider df order w0 in
  exists T,
    trace (world st) = trace w0 ++ T /\
    forall x, In x (upserts T) ->
      (1 <= List.length (fst x) <= PINECONE_UPSERT_BATCH_SIZE)%nat.
Proof.
  cbv zeta. destruct df as [|r0 df].
  { exists []. cbn. rewrite app_nil_r. split; [reflexivity|intros x []]. }
  rewrite run_filtered_batches by discriminate. cbv zeta.
  set (items := run_items repr_finite empty_array_truth dtype_of provider
                          (r0 :: df) order).
  destruct (deliver_batches_account (delivery_batches items) 0%Z w0)
    as (T & Ht & _ & _ & _ & Hb & _).
  exists T. cbn [world]. split; [assumption|]. intros x Hx.
  exact (proj1 (Forall_forall _ _) (proj2 (delivery_batches_spec items))
               _ (Hb x Hx)).
Qed.

(** X10: The buffer never holds a full batch between two items: a future that
    finds fewer than 100 items in it leaves fewer than 100, and so does the
    whole embedding phase. *)
Theorem buffer_stays_below_batch_size (df : list Row) :
  (forall (i : nat) (st : @RunState Vector),
      (List.length (vectors_to_upsert_buffer st)
         < PINECONE_UPSERT_BATCH_SIZE)%nat ->
      (List.length
         (vectors_to_upsert_buffer
            (process_future repr_finite empty_array_truth dtype_of sink disk
                            provider df i st))
         < PINECONE_UPSERT_BATCH_SIZE)%nat) /\
  (forall (order : list nat) (w0 : @World Vector),
      (List.length
         (vectors_to_upsert_buffer
            (embedding_phase repr_finite empty_array_truth dtype_of sink disk
                             provider df order w0))
         < PINECONE_UPSERT_BATCH_SIZE)%nat).
Proof.
  assert (Hfeed : forall items (st : @RunState Vector),
            (List.length (vectors_to_upsert_buffer st)
               < PINECONE_UPSERT_BATCH_SIZE)%nat ->
            (List.length (vectors_to_upsert_buffer (feed sink disk items st))
               < PINECONE_UPSERT_BATCH_SIZE)%nat).
  { intros items [buf c w] Hlt. cbn [vectors_to_upsert_buffer] in Hlt.
    rewrite feed_split. cbv zeta. cbn [vectors_to_upsert_buffer].
    exact (proj2 (proj2 (split_batches_spec PINECONE_UPSERT_BATCH_SIZE items
                           ltac:(unfold PINECONE_UPSERT_BATCH_SIZE; lia)
                           buf Hlt))). }
  split.
  - intros i st Hlt. rewrite process_future_feed. now apply Hfeed.
  - intros order w0. rewrite embedding_phase_feed. apply Hfeed.
    unfold PINECONE_UPSERT_BATCH_SIZE. cbn. lia.
Qed.

End RunAccounting.

Lemma run_accounts_for_appends_witness :
  let full := "[Errno 28] No space left on device" in
  let disk := fun n j : nat =>
    if ((n =? 1)%nat && (j =? 2)%nat)%bool then Some full else None in
  let st := run_filtered (fun _ => "0.5") (Some false) (fun _ => DOther)
                         (fun _ => None) disk sample_provider
                         (sample_frame 3) [0%nat] sample_world in
  exists T,
    trace (world st) = trace sample_world ++ T /\
    ckpt (world st) =
      (ckpt sample_world ++
       String.concat EmptyString
         (map (fun id_val => id_val ++ String PyStr.LF EmptyString)
              (appended T)))%string /\
    processed_count_in_run st = Z.of_nat (List.length (completed T)) /\
    (List.length (completed T) <= List.length (appended T))%nat /\
    (disk_ok disk ->
     processed_count_in_run st = Z.of_nat (List.length (appended T))) /\
    vectors_to_upsert_buffer st = [].
Proof.
  apply (run_accounts_for_appends (fun _ => "0.5") (Some false)
           (fun _ => DOther) (fun _ => None)
           (fun n j : nat =>
              if ((n =? 1)%nat && (j =? 2)%nat)%bool
              then Some "[Errno 28] No space left on device" else None)
           sample_provider (sample_frame 3) [0%nat] sample_world).
Defined.

(** A run whose one append stops at its second write: an id is in the file
    and the run counts none. *)
Lemma partial_append_is_not_counted :
  let full := "[Errno 28] No space left on device" in
  let disk := fun n j : nat =>
    if ((n =? 1)%nat && (j =? 2)%nat)%bool then Some full else None in
  let st := run_filtered (fun _ => "0.5") (Some false) (fun _ => DOther)
                         (fun _ => None) disk sample_provider
                         (sample_frame 3) [0%nat] sample_world in
  appended (trace (world st)) = ["0"] /\
  completed (trace (world st)) = [] /\
  ckpt (world st) = String "0" (String PyStr.LF EmptyString) /\
  processed_count_in_run st = 0%Z.
Proof. vm_compute. repeat split. Qed.

Lemma buffer_stays_below_batch_size_witness :
  (List.length
     (vectors_to_upsert_buffer
        (process_future (fun _ => "0.5") (Some false) (fun _ => DOther)
           (fun _ => None) sample_disk sample_provider (sample_frame 250) 2
           (mkRun (sample_buffer 99) 0 sample_world)))
     < PINECONE_UPSERT_BATCH_SIZE)%nat.
Proof.
  apply (proj1 (buffer_stays_below_batch_size (fun _ => "0.5") (Some false)
                  (fun _ => DOther) (fun _ => None) sample_disk
                  sample_provider (sample_frame 250))).
  unfold sample_buffer, PINECONE_UPSERT_BATCH_SIZE.
  cbn [vectors_to_upsert_buffer]. rewrite length_map, length_seq. lia.
Defined.

(** ** Chunks of any frame *)

Lemma filter_all {A : Type} (f : A -> bool) (l : list A) :
  Forall (fun x => f x = true) l -> filter f l = l.
Proof.
  induction 1 as [|x l Hx _ IH]; [reflexivity|].
  cbn [filter]. now rewrite Hx, IH.
Qed.

Lemma range_step_below (n step k : nat) :
  (0 < step)%nat -> (k < (n + step - 1) / step)%nat -> (k * step < n)%nat.
Proof.
  intros Hs Hk.
  pose proof (Nat.Div0.mul_div_le (n + step - 1) step) as Hd.
  nia.
Qed.

(** X11: The preparation loop cuts any frame into chunks of 1 to 100 rows, in
    order and without loss; there are as many chunks as the row count
    divided by 100, rounded up, and the text batches are the texts of the
    rows in the same order. *)
Theorem chunks_are_bounded_partition (df : list Row) :
  List.concat (all_original_data_batches df) = df /\
  Forall (fun c => (1 <= List.length c <= OPENAI_EMBEDDING_BATCH_SIZE)%nat)
         (all_original_data_batches df) /\
  List.length (all_original_data_batches df)
    = ((List.length df + 99) / 100)%nat /\
  List.concat (all_text_batches_to_embed df) = map row_text df.
Proof.
  assert (Hslices : Forall
            (fun c : list Row =>
               (1 <= List.length c <= OPENAI_EMBEDDING_BATCH_SIZE)%nat)
            (map (fun i => iloc i (i + OPENAI_EMBEDDING_BATCH_SIZE) df)
                 (range_step (List.length df) OPENAI_EMBEDDING_BATCH_SIZE))).
  { apply Forall_forall. intros c Hc. apply in_map_iff in Hc.
    destruct Hc as (i & <- & Hi). unfold range_step in Hi.
    apply in_map_iff in Hi. destruct Hi as (k & <- & Hk).
    apply in_seq in Hk.
    pose proof (range_step_below (List.length df) OPENAI_EMBEDDING_BATCH_SIZE
                  k ltac:(unfold OPENAI_EMBEDDING_BATCH_SIZE; lia)
                  ltac:(lia)) as Hlt.
    unfold iloc. rewrite length_firstn, length_skipn.
    unfold OPENAI_EMBEDDING_BATCH_SIZE in *. lia. }
  assert (Hkeep : all_original_data_batches df =
            map (fun i => iloc i (i + OPENAI_EMBEDDING_BATCH_SIZE) df)
                (range_step (List.length df) OPENAI_EMBEDDING_BATCH_SIZE)).
  { unfold all_original_data_batches. apply filter_all.
    apply Forall_forall. intros c Hc.
    pose proof (proj1 (Forall_forall _ _) Hslices c Hc) as Hl.
    destruct c; [cbn in Hl; lia|reflexivity]. }
  split; [apply chunks_partition|]. split; [now rewrite Hkeep|]. split.
  - rewrite Hkeep, length_map. unfold range_step.
    rewrite length_map, length_seq. unfold OPENAI_EMBEDDING_BATCH_SIZE.
    f_equal. lia.
  - unfold all_text_batches_to_embed.
    now rewrite <- concat_map, chunks_partition.
Qed.

(** ** Rows read from the file *)

(** X12: After loading, every identifier is a string and no text is missing,
    whichever way the cast to strings treats missing values. *)
Theorem loaded_rows_have_string_ids (repr_finite : spec_float -> string)
    (keeps : bool) (raw : list Row) (r : Row) :
  In r (load_data repr_finite keeps raw) ->
  (exists s, row_id r = AStr s /\ row_key repr_finite r = s) /\
  isna_atom (row_text r) = false.
Proof.
  intros Hr. unfold load_data, dropna, astype_id in Hr.
  apply filter_In in Hr. destruct Hr as [Hin Hr].
  apply andb_prop in Hr. destruct Hr as [Hid Htext].
  apply negb_true_iff in Hid, Htext. split; [|assumption].
  apply in_map_iff in Hin. destruct Hin as (r0 & <- & _).
  cbn [row_id] in *. unfold row_key. cbn [row_id].
  unfold astype_str in *.
  destruct (isna_atom (row_id r0) && keeps) eqn:E.
  - apply andb_prop in E. destruct E as [E _]. congruence.
  - eexists. split; reflexivity.
Qed.

Lemma loaded_rows_have_string_ids_witness :
  let raw := [mkRow (AInt 17) (AStr "hello") []; mkRow ANone ANone []] in
  let r := mkRow (AStr "17") (AStr "hello") [] in
  (exists s, row_id r = AStr s /\ row_key (fun _ => "0.5") r = s) /\
  isna_atom (row_text r) = false.
Proof.
  apply (loaded_rows_have_string_ids (fun _ => "0.5") false
           [mkRow (AInt 17) (AStr "hello") []; mkRow ANone ANone []]
           (mkRow (AStr "17") (AStr "hello") [])).
  vm_compute. now left.
Defined.

(** X13: A row whose cells are all scalars, as the cells read from a
    spreadsheet are, makes the coercion raise in one case only, a missing
    value in a column of extension dtype.  Without such a cell the payload
    is built and has one entry per column, under the column's name and in
    the order of the columns; with one, no payload is built. *)
Theorem scalar_rows_always_coerce (repr_finite : spec_float -> string)
    (empty_array_truth : option bool) (dtype_of : string -> dtype)
    (r : Row) :
  Forall (fun kv => exists a, snd kv = VAtom a) (row_attrs r) ->
  ((forall col_name a,
       In (col_name, VAtom a) (row_items r) -> isna_atom a = true ->
       dtype_of col_name <> DExtension) ->
   exists payload,
     metadata_payload repr_finite empty_array_truth dtype_of r = Some payload /\
     map fst payload = ID_COLUMN :: EMBED_COLUMN :: map fst (row_attrs r)) /\
  ((exists col_name a,
       In (col_name, VAtom a) (row_items r) /\ isna_atom a = true /\
       dtype_of col_name = DExtension) ->
   metadata_payload repr_finite empty_array_truth dtype_of r = None).
Proof.
  intros Hattrs.
  assert (Hscalar : Forall (fun kv => exists a, snd kv = VAtom a)
                           (row_items r)).
  { unfold row_items.
    constructor; [now eexists|]. constructor; [now eexists|assumption]. }
  unfold metadata_payload. clear Hattrs.
  change (ID_COLUMN :: EMBED_COLUMN :: map fst (row_attrs r))
    with (map fst (row_items r)).
  induction Hscalar as [|[c v] items (a & Ha) _ IH].
  - split; [intros _; now exists []|]. intros (c & a & [] & _).
  - cbn [snd] in Ha. subst v. cbn [coerce_items]. rewrite coerce_scalar.
    destruct IH as [IH1 IH2]. split.
    + intros Hfree.
      destruct IH1 as (payload & Hp & Hk).
      { intros c' a' Hin. apply Hfree. now right. }
      rewrite Hp.
      destruct (isna_atom a) eqn:Hna.
      * pose proof (Hfree c a (or_introl eq_refl) Hna) as Hdt.
        destruct (dtype_of c); try contradiction;
          (eexists; split; [reflexivity|cbn [map fst]; now rewrite Hk]).
      * eexists; split; [reflexivity|cbn [map fst]; now rewrite Hk].
    + intros (c' & a' & [Heq|Hin] & Hna & Hdt).
      * injection Heq as -> ->. now rewrite Hna, Hdt.
      * rewrite (IH2 (ex_intro _ c' (ex_intro _ a' (conj Hin (conj Hna Hdt))))).
        destruct (isna_atom a); [destruct (dtype_of c)|]; reflexivity.
Qed.

Lemma scalar_rows_always_coerce_witness :
  let r := mkRow (AStr "17") (AStr "hello")
                 [("likes", VAtom (AInt 3)); ("shared", VAtom ANone)] in
  (exists payload,
     metadata_payload (fun _ => "0.5") (Some false) (fun _ => DNumber) r
       = Some payload /\
     map fst payload = ID_COLUMN :: EMBED_COLUMN :: map fst (row_attrs r)) /\
  metadata_payload (fun _ => "0.5") None (fun _ => DExtension) r = None.
Proof.
  split.
  - apply (proj1 (scalar_rows_always_coerce (fun _ => "0.5") (Some false)
                    (fun _ => DNumber)
                    (mkRow (AStr "17") (AStr "hello")
                           [("likes", VAtom (AInt 3));
                            ("shared", VAtom ANone)])
                    ltac:(repeat constructor; eexists; reflexivity))).
    intros col_name a _ _. discriminate.
  - apply (proj2 (scalar_rows_always_coerce (fun _ => "0.5") None
                    (fun _ => DExtension)
                    (mkRow (AStr "17") (AStr "hello")
                           [("likes", VAtom (AInt 3));
                            ("shared", VAtom ANone)])
                    ltac:(repeat constructor; eexists; reflexivity))).
    exists "shared", ANone. split; [|split; reflexivity].
    right. right. right. now left.
Defined.

(** ** What a run checkpoints *)

Section RunOutcomes.

Context {Vector : Type}.

Variable repr_finite : spec_float -> string.
Variable empty_array_truth : option bool.
Variable dtype_of : string -> dtype.

Lemma items_from_sub (ids : list string) (rows : list Row)
    (embs : list Vector) :
  forall (idx : nat) (x : @DeliveryItem Vector),
    In x (items_from repr_finite empty_array_truth dtype_of ids rows idx
                     embs) ->
    In (item_id x) ids.
Proof.
  induction embs as [|v embs IH]; intros idx x Hx; [contradiction|].
  cbn [items_from] in Hx.
  destruct (nth_error ids idx) as [pid|] eqn:Hid; [|contradiction].
  destruct (nth_error rows idx) as [row|]; [|contradiction].
  destruct (metadata_payload _ _ _ row) as [payload|]; [|contradiction].
  destruct Hx as [<-|Hx]; [|now apply IH with (S idx)].
  cbn [item_id]. now apply nth_error_In with idx.
Qed.

Lemma future_items_sub (provider : nat -> list atom -> option (list Vector))
    (df : list Row) (i : nat) (x : @DeliveryItem Vector) :
  In x (future_items repr_finite empty_array_truth dtype_of provider df i) ->
  exists rows r,
    nth_error (all_original_data_batches df) i = Some rows /\
    provider i (map row_text rows) <> None /\
    In r rows /\ row_key repr_finite r = item_id x.
Proof.
  unfold future_items. intros Hx.
  destruct (nth_error _ i) as [rows|] eqn:Hi; [|contradiction].
  destruct (embed provider i (map row_text rows)) as [embs|] eqn:He;
    [|contradiction].
  apply items_from_sub in Hx. apply in_map_iff in Hx.
  destruct Hx as (r & Hk & Hr).
  exists rows, r. repeat split; try assumption.
  destruct rows as [|r0 rows]; [contradiction|].
  cbn [map embed] in He |- *. rewrite He. discriminate.
Qed.

(** X14: Only embedded rows are checkpointed: every id a run appends is the id of
    a row of the frame that sits in a chunk whose future completed and whose
    provider call returned.  The rows of a chunk whose call raised are left
    for the next run. *)
Theorem only_embedded_rows_are_checkpointed
    (sink : nat -> option string) (disk : nat -> nat -> option string)
    (provider : nat -> list atom -> option (list Vector))
    (df : list Row) (order : list nat) (w0 : @World Vector) :
  let st := run_filtered repr_finite empty_array_truth dtype_of sink disk provider
                         df order w0 in
  exists T,
    trace (world st) = trace w0 ++ T /\
    forall id_val, In id_val (appended T) ->
      exists i rows r,
        In i order /\
        nth_error (all_original_data_batches df) i = Some rows /\
        provider i (map row_text rows) <> None /\
        In r rows /\ In r df /\ row_key repr_finite r = id_val.
Proof.
  cbv zeta. destruct df as [|r0 df].
  { exists []. cbn. rewrite app_nil_r. split; [reflexivity|intros ? []]. }
  rewrite run_filtered_batches by discriminate. cbv zeta.
  set (items := run_items repr_finite empty_array_truth dtype_of provider
                          (r0 :: df) order).
  destruct (deliver_batches_account sink disk (delivery_batches items) 0%Z w0)
    as (T & Ht & _ & _ & Ha & _ & _).
  exists T. cbn [world]. split; [assumption|].
  intros id_val Hin. destruct (Ha id_val Hin) as (b & Hb & Hid).
  apply in_map_iff in Hid. destruct Hid as (x & <- & Hx).
  assert (Hitems : In x items).
  { rewrite <- (proj1 (delivery_batches_spec items)).
    apply in_concat. now exists b. }
  unfold items, run_items in Hitems. apply in_flat_map in Hitems.
  destruct Hitems as (i & Hi & Hxi).
  destruct (future_items_sub provider (r0 :: df) i x Hxi)
    as (rows & r & Hrows & Hprov & Hr & Hk).
  exists i, rows, r. repeat split; try assumption.
  rewrite <- (chunks_partition (r0 :: df)). apply in_concat.
  exists rows. split; [now apply nth_error_In with i|assumption].
Qed.

Lemma all_ok_events_appended (bs : list (@DeliveryBatch Vector)) :
  appended (flat_map (fun b => [EvUpsert b None; EvAppend (map item_id b) None]) bs)
  = map item_id (List.concat bs).
Proof.
  induction bs as [|b bs IH]; [reflexivity|].
  cbn [flat_map app appended List.concat]. now rewrite IH, map_app.
Qed.

Lemma all_ok_events_upserts (bs : list (@DeliveryBatch Vector)) :
  upserts (flat_map (fun b => [EvUpsert b None; EvAppend (map item_id b) None]) bs)
  = map (fun b => (b, None)) bs.
Proof.
  induction bs as [|b bs IH]; [reflexivity|].
  cbn [flat_map app upserts map]. now rewrite IH.
Qed.

(** The deliveries of a run whose every sink call is accepted. *)
Lemma deliver_batches_all_ok (sink : nat -> option string)
    (disk : nat -> nat -> option string)
    (bs : list (@DeliveryBatch Vector)) :
  (forall n, sink n = None) -> disk_ok disk ->
  Forall (fun b => b <> []) bs ->
  forall (c : Z) (w : @World Vector),
    deliver_batches sink disk bs (c, w) =
    ((c + Z.of_nat (List.length (List.concat bs)))%Z,
     mkWorld (save_processed_ids (map item_id (List.concat bs)) (ckpt w))
             (served w + List.length bs)
             (trace w ++
              flat_map (fun b => [EvUpsert b None; EvAppend (map item_id b) None])
                       bs)).
Proof.
  intros Hsink Hdisk. induction 1 as [|b bs Hb _ IH]; intros c w.
  - cbn. rewrite Z.add_0_r, Nat.add_0_r, app_nil_r. now destruct w.
  - cbn [deliver_batches fold_left].
    rewrite (deliver_step_ok sink disk b c w Hb Hdisk (Hsink _)).
    unfold deliver_batches in IH. rewrite IH.
    cbn [ckpt served trace List.concat flat_map List.length].
    rewrite map_app, save_processed_ids_app, length_app, <- app_assoc.
    f_equal; [lia|]. f_equal. lia.
Qed.

(** A run in which every provider call, every coercion and every sink call
    succeeds. *)
Lemma run_all_ok (sink : nat -> option string)
    (disk : nat -> nat -> option string)
    (provider : nat -> list atom -> option (list Vector))
    (df : list Row) (order : list nat) (w0 : @World Vector) :
  provider_ok provider ->
  Forall (coercible repr_finite empty_array_truth dtype_of) df ->
  (forall n, sink n = None) -> disk_ok disk ->
  Permutation order (seq 0 (List.length (all_original_data_batches df))) ->
  let st := run_filtered repr_finite empty_array_truth dtype_of sink disk provider
                         df order w0 in
  exists T,
    trace (world st) = trace w0 ++ T /\
    Forall (fun x => snd x = None) (upserts T) /\
    Permutation (appended T) (map (row_key repr_finite) df) /\
    ckpt (world st) = save_processed_ids (appended T) (ckpt w0) /\
    processed_count_in_run st = Z.of_nat (List.length df).
Proof.
  intros Hp Hok Hsink Hdisk Hperm. cbv zeta. destruct df as [|r0 df].
  { exists []. cbn. rewrite app_nil_r. repeat split; constructor. }
  rewrite run_filtered_batches by discriminate. cbv zeta.
  set (items := run_items repr_finite empty_array_truth dtype_of provider
                          (r0 :: df) order).
  pose proof (run_items_ids repr_finite empty_array_truth dtype_of provider
                (r0 :: df) order Hp Hok Hperm) as Hids.
  fold items in Hids.
  destruct (delivery_batches_spec items) as (Hcat & Hsizes).
  rewrite deliver_batches_all_ok; [|assumption|assumption|].
  2:{ apply Forall_forall. intros b Hb.
      pose proof (proj1 (Forall_forall _ _) Hsizes b Hb) as Hl.
      intros ->. cbn in Hl. lia. }
  cbn [fst snd world trace ckpt processed_count_in_run].
  eexists. split; [reflexivity|].
  rewrite all_ok_events_appended, all_ok_events_upserts, Hcat.
  repeat split.
  - apply Forall_forall. intros x Hx. apply in_map_iff in Hx.
    now destruct Hx as (b & <- & _).
  - exact Hids.
  - rewrite <- (length_map item_id), (Permutation_length Hids), length_map.
    reflexivity.
Qed.

End RunOutcomes.

(** ** The whole script, run once and run again *)

Section WholeRuns.

Context {Vector : Type}.

Variable repr_finite : spec_float -> string.
Variable empty_array_truth : option bool.
Variable astype_keeps_na : bool.
Variable dtype_of : string -> dtype.

Lemma isin_In (id_val : string) (ids : list string) :
  isin id_val ids = true <-> In id_val ids.
Proof.
  unfold isin. rewrite existsb_exists. split.
  - intros (x & Hx & Heq). apply String.eqb_eq in Heq. now subst.
  - intros H. exists id_val. split; [assumption|apply String.eqb_refl].
Qed.

Lemma resume_nil (df : list Row) (processed : list string) :
  (forall r, In r df -> isin (row_key repr_finite r) processed = true) ->
  resume repr_finite df processed = [].
Proof.
  intros H. destruct (resume repr_finite df processed) as [|r l] eqn:E;
    [reflexivity|].
  assert (Hr : In r (resume repr_finite df processed))
    by (rewrite E; now left).
  apply resume_In in Hr. destruct Hr as [Hin Hf].
  rewrite (H r Hin) in Hf. discriminate.
Qed.

(** X15: The script from the raw frame on: when every provider call, coercion,
    sink call and operation on the checkpoint file succeeds, the rows it
    checkpoints are the loaded rows whose id was not in the checkpoint file,
    each once; the file grows by one line per such id, and the run counts
    them all. *)
Theorem main_checkpoints_every_new_row
    (sink : nat -> option string) (disk : nat -> nat -> option string)
    (provider : nat -> list atom -> option (list Vector))
    (raw : list Row) (order : list nat) (w0 : @World Vector) :
  let df := resume repr_finite (load_data repr_finite astype_keeps_na raw)
                   (load_processed_ids (ckpt w0)) in
  provider_ok provider ->
  Forall (coercible repr_finite empty_array_truth dtype_of) df ->
  (forall n, sink n = None) ->
  disk_ok disk ->
  Permutation order (seq 0 (List.length (all_original_data_batches df))) ->
  let st := main repr_finite empty_array_truth astype_keeps_na dtype_of sink
                 disk provider raw order w0 in
  (forall r, In r df <->
             In r (load_data repr_finite astype_keeps_na raw) /\
             isin (row_key repr_finite r) (load_processed_ids (ckpt w0))
               = false) /\
  exists T,
    trace (world st) = trace w0 ++ T /\
    Forall (fun x => snd x = None) (upserts T) /\
    Permutation (appended T) (map (row_key repr_finite) df) /\
    ckpt (world st) = save_processed_ids (appended T) (ckpt w0) /\
    ckpt (world st) =
      (ckpt w0 ++
       String.concat EmptyString
         (map (fun id_val => id_val ++ String PyStr.LF EmptyString)
              (appended T)))%string /\
    processed_count_in_run st = Z.of_nat (List.length df).
Proof.
  intros df Hp Hok Hsink Hdisk Hperm st. split; [intros r; apply resume_In|].
  destruct (run_all_ok repr_finite empty_array_truth dtype_of sink disk
              provider df order w0 Hp Hok Hsink Hdisk Hperm)
    as (T & H1 & H2 & H3 & H4 & H5).
  exists T. subst st. unfold main. fold df.
  repeat split; try assumption.
  now rewrite H4, save_processed_ids_text, ids_text_concat.
Qed.

(** X16: Running the script again after a run in which everything succeeded does
    nothing: all the rows are filtered out, no provider or sink call is
    made, and the checkpoint file stays as the first run left it, whatever
    the sink, the provider and the file system would answer.  The ids have
    to be clean and the file empty or ended by a line feed for the ids to be
    read back. *)
Theorem second_run_is_idle
    (sink : nat -> option string) (disk : nat -> nat -> option string)
    (provider : nat -> list atom -> option (list Vector))
    (raw : list Row) (order : list nat) (w0 : @World Vector) :
  let loaded := load_data repr_finite astype_keeps_na raw in
  let df := resume repr_finite loaded (load_processed_ids (ckpt w0)) in
  terminated (ckpt w0) ->
  Forall (fun r => clean_id (row_key repr_finite r) = true) loaded ->
  provider_ok provider ->
  Forall (coercible repr_finite empty_array_truth dtype_of) df ->
  (forall n, sink n = None) ->
  disk_ok disk ->
  Permutation order (seq 0 (List.length (all_original_data_batches df))) ->
  let st := main repr_finite empty_array_truth astype_keeps_na dtype_of sink
                 disk provider raw order w0 in
  forall (sink' : nat -> option string) (disk' : nat -> nat -> option string)
         (provider' : nat -> list atom -> option (list Vector))
         (order' : list nat),
    main repr_finite empty_array_truth astype_keeps_na dtype_of sink' disk'
         provider' raw order' (world st)
    = mkRun [] 0 (world st).
Proof.
  intros loaded df Hterm Hclean Hp Hok Hsink Hdisk Hperm st sink' disk'
         provider' order'.
  destruct (run_all_ok repr_finite empty_array_truth dtype_of sink disk
              provider df order w0 Hp Hok Hsink Hdisk Hperm)
    as (T & _ & _ & Hperm_ids & Hckpt & _).
  change (ckpt (world st) = save_processed_ids (appended T) (ckpt w0))
    in Hckpt.
  assert (HA : Forall (fun id_val => clean_id id_val = true) (appended T)).
  { apply Forall_forall. intros a Ha.
    apply (Permutation_in _ Hperm_ids) in Ha. apply in_map_iff in Ha.
    destruct Ha as (r & <- & Hr). apply resume_In in Hr.
    exact (proj1 (Forall_forall _ _) Hclean r (proj1 Hr)). }
  assert (Hload : load_processed_ids (ckpt (world st)) =
                  load_processed_ids (ckpt w0) ++ appended T).
  { rewrite Hckpt, save_processed_ids_text,
      (load_after_terminated _ _ Hterm).
    now rewrite load_ids_text_clean. }
  unfold main. fold loaded. rewrite Hload, resume_nil; [reflexivity|].
  intros r Hr. unfold isin. rewrite existsb_app. apply orb_true_iff.
  destruct (isin (row_key repr_finite r) (load_processed_ids (ckpt w0)))
    eqn:E; [now left|right].
  apply isin_In. apply (Permutation_in _ (Permutation_sym Hperm_ids)).
  apply in_map. apply resume_In. now split.
Qed.

End WholeRuns.

Lemma main_checkpoints_every_new_row_witness :
  let st := main (fun _ => "0.5") (Some false) false (fun _ => DOther)
                 (fun _ => None) sample_disk sample_provider (sample_frame 3)
                 [0%nat] sample_world in
  exists T,
    trace (world st) = trace sample_world ++ T /\
    Forall (fun x => snd x = None) (upserts T) /\
    Permutation (appended T)
                (map (row_key (fun _ => "0.5")) (sample_frame 3)) /\
    ckpt (world st) = save_processed_ids (appended T) (ckpt sample_world) /\
    ckpt (world st) =
      (ckpt sample_world ++
       String.concat EmptyString
         (map (fun id_val => id_val ++ String PyStr.LF EmptyString)
              (appended T)))%string /\
    processed_count_in_run st = 3%Z.
Proof.
  apply (main_checkpoints_every_new_row (fun _ => "0.5") (Some false) false
           (fun _ => DOther) (fun _ => None) sample_disk sample_provider
           (sample_frame 3) [0%nat] sample_world).
  - exact sample_provider_ok.
  - exact (sample_frame_coercible 3).
  - reflexivity.
  - exact sample_disk_ok.
  - apply Permutation_refl.
Defined.

Lemma second_run_is_idle_witness :
  let st := main (fun _ => "0.5") (Some false) false (fun _ => DOther)
                 (fun _ => None) sample_disk sample_provider (sample_frame 3)
                 [0%nat] sample_world in
  main (fun _ => "0.5") (Some false) false (fun _ => DOther)
       (fun _ => Some sample_refusal) sample_disk sample_provider
       (sample_frame 3) [0%nat] (world st)
  = mkRun [] 0 (world st).
Proof.
  apply (second_run_is_idle (fun _ => "0.5") (Some false) false
           (fun _ => DOther) (fun _ => None) sample_disk sample_provider
           (sample_frame 3) [0%nat] sample_world).
  - now left.
  - repeat constructor.
  - exact sample_provider_ok.
  - exact (sample_frame_coercible 3).
  - reflexivity.
  - exact sample_disk_ok.
  - apply Permutation_refl.
Defined.

(** ** Embeddings and the rows they belong to *)

Section Embeddings.

Context {Vector : Type}.

Variable repr_finite : spec_float -> string.
Variable empty_array_truth : option bool.
Variable dtype_of : string -> dtype.

Lemma items_from_aligned (ids : list string) (rows : list Row)
    (embs : list Vector) :
  forall (idx : nat) (x : @DeliveryItem Vector),
    In x (items_from repr_finite empty_array_truth dtype_of ids rows idx embs)
    ->
    exists j r,
      nth_error embs j = Some (item_values x) /\
      nth_error ids (idx + j) = Some (item_id x) /\
      nth_error rows (idx + j) = Some r /\
      metadata_payload repr_finite empty_array_truth dtype_of r
        = Some (item_metadata x).
Proof.
  induction embs as [|v embs IH]; intros idx x Hx; [contradiction|].
  cbn [items_from] in Hx.
  destruct (nth_error ids idx) as [pid|] eqn:Hid; [|contradiction].
  destruct (nth_error rows idx) as [row|] eqn:Hrow; [|contradiction].
  destruct (metadata_payload _ _ _ row) as [payload|] eqn:Hm;
    [|contradiction].
  destruct Hx as [<-|Hx].
  - exists 0%nat, row. rewrite Nat.add_0_r. now repeat split.
  - destruct (IH (S idx) x Hx) as (j & r & H1 & H2 & H3 & H4).
    exists (S j), r. rewrite Nat.add_succ_r. now repeat split.
Qed.

(** X17: Vectors stay with their rows: an item built from a completed future
    carries the j-th vector the provider returned, the id of the j-th row of
    the chunk and the payload coerced from that same row. *)
Theorem items_pair_vectors_with_rows
    (provider : nat -> list atom -> option (list Vector))
    (df : list Row) (i : nat) (x : @DeliveryItem Vector) :
  In x (future_items repr_finite empty_array_truth dtype_of provider df i) ->
  exists rows embs j r,
    nth_error (all_original_data_batches df) i = Some rows /\
    provider i (map row_text rows) = Some embs /\
    nth_error embs j = Some (item_values x) /\
    nth_error rows j = Some r /\
    item_id x = row_key repr_finite r /\
    metadata_payload repr_finite empty_array_truth dtype_of r
      = Some (item_metadata x).
Proof.
  unfold future_items. intros Hx.
  destruct (nth_error _ i) as [rows|] eqn:Hi; [|contradiction].
  destruct (embed provider i (map row_text rows)) as [embs|] eqn:He;
    [|contradiction].
  destruct (items_from_aligned _ _ _ _ _ Hx) as (j & r & H1 & H2 & H3 & H4).
  cbn [Nat.add] in H2, H3. rewrite nth_error_map, H3 in H2.
  cbn [option_map] in H2. injection H2 as H2.
  exists rows, embs, j, r. repeat split; try assumption; [|now symmetry].
  destruct rows as [|r0 rows]; [now destruct j|]. exact He.
Qed.

(** X18: When every provider call raises, the run goes through all the futures,
    calls the sink for nothing, appends nothing and reports 0. *)
Theorem failed_embeddings_leave_no_trace
    (sink : nat -> option string) (disk : nat -> nat -> option string)
    (provider : nat -> list atom -> option (list Vector))
    (df : list Row) (order : list nat) (w0 : @World Vector) :
  (forall i texts, provider i texts = None) ->
  run_filtered repr_finite empty_array_truth dtype_of sink disk provider df order w0
  = mkRun [] 0 w0.
Proof.
  intros Hfail. destruct df as [|r0 df]; [reflexivity|].
  rewrite run_filtered_batches by discriminate. cbv zeta.
  assert (Hitems : run_items repr_finite empty_array_truth dtype_of provider
                             (r0 :: df) order = []).
  { unfold run_items. induction order as [|i order IH]; [reflexivity|].
    cbn [flat_map]. rewrite IH, app_nil_r. unfold future_items.
    destruct (nth_error _ i) as [rows|]; [|reflexivity].
    unfold embed. destruct (map row_text rows); [reflexivity|].
    now rewrite Hfail. }
  rewrite Hitems. reflexivity.
Qed.

End Embeddings.

Lemma items_pair_vectors_with_rows_witness :
  let df := sample_frame 3 in
  let provider := fun (_ : nat) (texts : list atom) =>
                    Some (seq 10 (List.length texts)) in
  let x := mkItem "1" 11%nat
                  [(ID_COLUMN, MStr "1"); (EMBED_COLUMN, MStr "hello")] in
  exists rows embs j r,
    nth_error (all_original_data_batches df) 0 = Some rows /\
    provider 0%nat (map row_text rows) = Some embs /\
    nth_error embs j = Some (item_values x) /\
    nth_error rows j = Some r /\
    item_id x = row_key (fun _ => "0.5") r /\
    metadata_payload (fun _ => "0.5") (Some false) (fun _ => DOther) r
      = Some (item_metadata x).
Proof.
  apply (items_pair_vectors_with_rows (fun _ => "0.5") (Some false)
           (fun _ => DOther)
           (fun (_ : nat) (texts : list atom) =>
              Some (seq 10 (List.length texts)))
           (sample_frame 3) 0
           (mkItem "1" 11%nat
                   [(ID_COLUMN, MStr "1"); (EMBED_COLUMN, MStr "hello")])).
  vm_compute. right. now left.
Defined.

Lemma failed_embeddings_leave_no_trace_witness :
  run_filtered (fun _ => "0.5") (Some false) (fun _ => DOther)
               (fun _ => None) sample_disk (fun _ _ => @None (list unit))
               (sample_frame 250) [2; 0; 1]%nat sample_world
  = mkRun [] 0 sample_world.
Proof.
  apply (failed_embeddings_leave_no_trace (fun _ => "0.5") (Some false)
           (fun _ => DOther) (fun _ => None) sample_disk
           (fun _ _ => @None (list unit))
           (sample_frame 250) [2; 0; 1]%nat sample_world).
  reflexivity.
Defined.
